(** * Verification of [extract_and_migrate.py]

    A shallow embedding of the Supabase data-migration script: the four
    row transformers, the extractor [get_data_from_table], the batched
    loader [insert_data_to_table] and the orchestrating loop of [main],
    followed by the properties the specification states about them.

    Rows are Python dictionaries decoded from JSON; they are modelled as
    finite maps from field names to JSON values.  The HTTP layer (the
    [requests] library and the remote servers) is modelled as an oracle
    that answers each request from the history of earlier requests, and
    the script's effects (requests sent, lines printed) as an event log
    threaded through every call. *)

From Stdlib Require Import ZArith String List.
From Stdlib Require Import Floats.SpecFloat.
From stdpp Require Import gmap strings list fin_maps pretty.

Set Warnings "-register-all".
Local Open Scope string_scope.

(** ** JSON values and rows *)

(** What [response.json()] can hand back: Python's [None], [bool], [int],
    [float], [str], [list] and [dict]. *)
Inductive value : Type :=
  | VNull
  | VBool (b : bool)
  | VInt (n : Z)
  | VFloat (f : spec_float)
  | VStr (s : string)
  | VList (l : list value)
  | VDict (m : gmap string value).

(** A row is a [Dict[str, Any]]. *)
Abbreviation row := (gmap string value).

(** [item.get(key, default)]: the stored value when [key] is a key of
    [item] (whatever that value is, [None] included), else [default]. *)
Definition dict_get (item : row) (key : string) (dflt : value) : value :=
  match item !! key with
  | Some v => v
  | None => dflt
  end.

(** A dictionary display [{k1: v1, ..., kn: vn}]: the pairs are stored
    from left to right, a later pair replacing an earlier one with the
    same key. *)
Definition dict_literal (kvs : list (string * value)) : row :=
  fold_left (fun m kv => <[kv.1 := kv.2]> m) kvs ∅.

(** ** The transformers *)

Module Transform.

Definition transform_cat_name_options (data : list row) : list row :=
  map (fun item =>
    dict_literal
      [ ("name", dict_get item "name" (VStr EmptyString));
        ("description", dict_get item "description" (VStr EmptyString));
        ("avg_rating", dict_get item "avg_rating" (VInt 1500));
        ("popularity_score", dict_get item "popularity_score" (VInt 0));
        ("total_tournaments", dict_get item "total_tournaments" (VInt 0));
        ("is_active", dict_get item "is_active" (VBool true));
        ("categories", dict_get item "categories" (VList [])) ]) data.

Definition transform_cat_app_users (data : list row) : list row :=
  map (fun item =>
    dict_literal
      [ ("user_name", dict_get item "user_name" (VStr EmptyString));
        ("preferences", dict_get item "preferences" (VDict (dict_literal
           [ ("sound_enabled", VBool true);
             ("theme_preference", VStr "dark");
             ("preferred_categories", VList []);
             ("rating_display_preference", VStr "elo");
             ("tournament_size_preference", VInt 8) ])));
        ("tournament_data", dict_get item "tournament_data" (VList [])) ]) data.

Definition transform_cat_name_ratings (data : list row) : list row :=
  map (fun item =>
    dict_literal
      [ ("user_name", dict_get item "user_name" (VStr EmptyString));
        ("name_id", dict_get item "name_id" (VStr EmptyString));
        ("rating", dict_get item "rating" (VInt 1500));
        ("wins", dict_get item "wins" (VInt 0));
        ("losses", dict_get item "losses" (VInt 0));
        ("is_hidden", dict_get item "is_hidden" (VBool false));
        ("rating_history", dict_get item "rating_history" (VList [])) ]) data.

Definition transform_tournament_selections (data : list row) : list row :=
  map (fun item =>
    dict_literal
      [ ("user_name", dict_get item "user_name" (VStr EmptyString));
        ("name_id", dict_get item "name_id" (VStr EmptyString));
        ("name", dict_get item "name" (VStr EmptyString));
        ("tournament_id", dict_get item "tournament_id" (VStr EmptyString));
        ("selected_at", dict_get item "selected_at" (VStr EmptyString));
        ("selection_type",
           dict_get item "selection_type" (VStr "tournament_setup")) ]) data.

End Transform.

(** ** Destination schemas

    The destination fields of each table with the default constant the
    source names for each, listed apart from the transformers so that the
    properties below can be stated against them. *)

Inductive table : Type :=
  | CatNameOptions
  | CatAppUsers
  | CatNameRatings
  | TournamentSelections.

Definition transform_of (t : table) : list row -> list row :=
  match t with
  | CatNameOptions => Transform.transform_cat_name_options
  | CatAppUsers => Transform.transform_cat_app_users
  | CatNameRatings => Transform.transform_cat_name_ratings
  | TournamentSelections => Transform.transform_tournament_selections
  end.

Definition default_preferences : value :=
  VDict (<["sound_enabled" := VBool true]>
        (<["theme_preference" := VStr "dark"]>
        (<["preferred_categories" := VList []]>
        (<["rating_display_preference" := VStr "elo"]>
        (<["tournament_size_preference" := VInt 8]> ∅))))).

Definition schema_of (t : table) : list (string * value) :=
  match t with
  | CatNameOptions =>
      [ ("name", VStr EmptyString); ("description", VStr EmptyString);
        ("avg_rating", VInt 1500); ("popularity_score", VInt 0);
        ("total_tournaments", VInt 0); ("is_active", VBool true);
        ("categories", VList []) ]
  | CatAppUsers =>
      [ ("user_name", VStr EmptyString); ("preferences", default_preferences);
        ("tournament_data", VList []) ]
  | CatNameRatings =>
      [ ("user_name", VStr EmptyString); ("name_id", VStr EmptyString);
        ("rating", VInt 1500); ("wins", VInt 0); ("losses", VInt 0);
        ("is_hidden", VBool false); ("rating_history", VList []) ]
  | TournamentSelections =>
      [ ("user_name", VStr EmptyString); ("name_id", VStr EmptyString);
        ("name", VStr EmptyString); ("tournament_id", VStr EmptyString);
        ("selected_at", VStr EmptyString);
        ("selection_type", VStr "tournament_setup") ]
  end.

(** The destination key set of a table. *)
Definition keys_of (t : table) : gset string :=
  list_to_set (map fst (schema_of t)).

(** One output row, read off a schema: every listed field, taken from the
    input row when it is there and from the schema otherwise. *)
Definition reshape (schema : list (string * value)) (item : row) : row :=
  dict_literal (map (fun kd => (kd.1, dict_get item kd.1 kd.2)) schema).

(** ** Effects: the event log and the HTTP layer *)

Inductive http_method : Type := GET | POST.

(** What the script hands to [requests.get] and [requests.post]. *)
Record request : Type := {
  req_method : http_method;
  req_url : string;
  req_headers : list (string * string);
  req_json : option (list row)
}.

(** The parts of a [requests.Response] the script can observe.  [json] is
    what [response.json()] does: [inr rows] when the body decodes to a
    list of rows, [inl msg] when decoding raises a [JSONDecodeError]
    whose text is [msg]. *)
Record response : Type := {
  status_code : Z;
  reason : string;
  url : string;
  text : string;
  json : string + list row
}.

(** [requests] documents [RequestException] as the base class of every
    exception it raises (transport failures, [HTTPError],
    [JSONDecodeError]); it is the class both handlers of the script
    catch.  [exc_str] is [str(e)], [exc_response] is [e.response]. *)
Record RequestException : Type := {
  exc_str : string;
  exc_response : option response
}.

(** The remote side: given the requests sent so far and the current one,
    either the call fails in transport or a response comes back. *)
Definition remote : Type :=
  list request -> request -> RequestException + response.

Inductive event : Type :=
  | Sent (r : request)
  | Printed (line : string).

Definition requests_of (log : list event) : list request :=
  omap (fun e => match e with Sent r => Some r | Printed _ => None end) log.

(** Computations that read and extend the event log (oldest event
    first). *)
Definition io (A : Type) : Type := list event -> A * list event.

#[export] Instance io_ret : MRet io := fun A a log => (a, log).
#[export] Instance io_bind : MBind io := fun A B f m log =>
  let '(a, log') := m log in f a log'.

(** The body of a [try] block: each statement may raise, and a raise
    skips the statements after it. *)
Definition attempt (A : Type) : Type := io (RequestException + A).

#[export] Instance attempt_ret : MRet attempt := fun A a log => (inr a, log).
#[export] Instance attempt_bind : MBind attempt := fun A B f m log =>
  match m log with
  | (inl e, log') => (inl e, log')
  | (inr a, log') => f a log'
  end.

Definition raise {A : Type} (e : RequestException) : attempt A :=
  fun log => (inl e, log).

(** [try: body  except RequestException as e: handler(e)]. *)
Definition try_except {A : Type}
    (body : attempt A) (handler : RequestException -> io A) : io A :=
  fun log =>
    match body log with
    | (inl e, log') => handler e log'
    | (inr a, log') => (a, log')
    end.

(** [for x in xs: body(x)]. *)
Fixpoint for_each {M : Type -> Type} `{MBind M, MRet M} {A : Type}
    (xs : list A) (body : A -> M unit) : M unit :=
  match xs with
  | [] => mret tt
  | x :: xs' => body x ;; for_each xs' body
  end.

Definition print (line : string) : io unit :=
  fun log => (tt, (log ++ [Printed line])%list).

(** A statement that cannot raise, used inside a [try] block. *)
Definition lift {A : Type} (m : io A) : attempt A :=
  fun log => let '(a, log') := m log in (inr a, log').

Definition send (net : remote) (r : request) : attempt response :=
  fun log => (net (requests_of log) r, (log ++ [Sent r])%list).

Definition requests_get (net : remote)
    (url : string) (headers : list (string * string)) : attempt response :=
  send net {| req_method := GET; req_url := url;
              req_headers := headers; req_json := None |}.

Definition requests_post (net : remote)
    (url : string) (headers : list (string * string))
    (body : list row) : attempt response :=
  send net {| req_method := POST; req_url := url;
              req_headers := headers; req_json := Some body |}.

(** [Response.raise_for_status]: an [HTTPError] carrying the response for
    a status in 400..599, nothing otherwise. *)
Definition raise_for_status (r : response) : attempt unit :=
  if ((400 <=? status_code r) && (status_code r <? 500))%Z then
    raise {| exc_str := pretty (status_code r) +:+ " Client Error: " +:+
                        reason r +:+ " for url: " +:+ url r;
             exc_response := Some r |}
  else if ((500 <=? status_code r) && (status_code r <? 600))%Z then
    raise {| exc_str := pretty (status_code r) +:+ " Server Error: " +:+
                        reason r +:+ " for url: " +:+ url r;
             exc_response := Some r |}
  else mret tt.

(** [Response.json]. *)
Definition response_json (r : response) : attempt (list row) :=
  match json r with
  | inl msg => raise {| exc_str := msg; exc_response := None |}
  | inr rows => mret rows
  end.

(** ** Python built-ins used by the loader *)

(** [range(start, stop, step)] for a positive [step]. *)
Definition py_range (start stop step : nat) : list nat :=
  map (fun j => start + j * step) (seq 0 ((stop - start + step - 1) / step)).

(** [l[i:j]] for [0 <= i <= j]; a slice reaching past the end is cut
    short. *)
Definition py_slice {A : Type} (l : list A) (i j : nat) : list A :=
  take (j - i) (drop i l).

(** ** Extractor and loader *)

Definition get_data_from_table (net : remote)
    (project_url anon_key table_name : string) : io (list row) :=
  let headers :=
    [ ("apikey", anon_key);
      ("Authorization", "Bearer " +:+ anon_key);
      ("Content-Type", "application/json");
      ("Prefer", "return=representation") ] in
  let url := project_url +:+ "/rest/v1/" +:+ table_name +:+ "?select=*" in
  try_except
    (response ← requests_get net url headers;
     raise_for_status response ;;
     response_json response)
    (fun e =>
       print ("Error getting data from " +:+ table_name +:+ ": " +:+ exc_str e) ;;
       mret []).

Definition batch_size : nat := 50.

Definition insert_data_to_table (net : remote)
    (project_url anon_key table_name : string)
    (data : list row) (use_upsert : bool) : io bool :=
  match data with
  | [] =>
      print ("No data to insert for " +:+ table_name) ;;
      mret true
  | _ :: _ =>
      let headers :=
        [ ("apikey", anon_key);
          ("Authorization", "Bearer " +:+ anon_key);
          ("Content-Type", "application/json");
          ("Prefer", if use_upsert
                     then "return=representation,resolution=merge-duplicates"
                     else "return=representation") ] in
      let url := project_url +:+ "/rest/v1/" +:+ table_name in
      try_except
        (for_each (py_range 0 (length data) batch_size) (fun i =>
           let batch := py_slice data i (i + batch_size) in
           response ← requests_post net url headers batch;
           raise_for_status response ;;
           lift (print ("Inserted batch " +:+ pretty (i / batch_size + 1) +:+
                        " for " +:+ table_name +:+
                        " (" +:+ pretty (length batch) +:+ " records)"))) ;;
         mret true)
        (fun e =>
           print ("Error inserting data into " +:+ table_name +:+ ": " +:+
                  exc_str e) ;;
           match exc_response e with
           | Some r => print ("Response content: " +:+ text r)
           | None => mret tt
           end ;;
           mret false)
  end.

(** ** Orchestrator *)

Definition OLD_PROJECT_ID : string := "xazswqjxukvghmjbhiap".
Definition NEW_PROJECT_ID : string := "ocghxwwwuubgmwsxgyoy".

Definition OLD_SUPABASE_URL : string :=
  "https://" +:+ OLD_PROJECT_ID +:+ ".supabase.co".
Definition NEW_SUPABASE_URL : string :=
  "https://" +:+ NEW_PROJECT_ID +:+ ".supabase.co".

(** An entry of [tables]:
    [(table_name, display_name, transform_func, use_upsert)]. *)
Definition descriptor : Type :=
  string * string * (list row -> list row) * bool.

Definition tables : list descriptor :=
  [ ("cat_name_options", "cat_name_options",
       Transform.transform_cat_name_options, true);
    ("cat_app_users", "cat_app_users",
       Transform.transform_cat_app_users, false);
    ("cat_name_ratings", "cat_name_ratings",
       Transform.transform_cat_name_ratings, false);
    ("tournament_selections", "tournament_selections",
       Transform.transform_tournament_selections, false) ].

Section Orchestrator.

(** The two API keys are configuration; nothing below depends on their
    contents. *)
Variables OLD_ANON_KEY NEW_ANON_KEY : string.
Variable net : remote.

(** The body of the loop of [main], for one descriptor. *)
Definition migrate_table (d : descriptor) : io unit :=
  let '(table_name, display_name, transform_func, use_upsert) := d in
  print ("📤 Extracting data from " +:+ display_name +:+ "...") ;;
  data ← get_data_from_table net OLD_SUPABASE_URL OLD_ANON_KEY table_name;
  match data with
  | _ :: _ =>
      print ("✅ Extracted " +:+ pretty (length data) +:+
             " records from " +:+ display_name) ;;
      print ("🔄 Transforming data for " +:+ display_name +:+ "...") ;;
      let transformed_data := transform_func data in
      print ("📥 Inserting data into " +:+ display_name +:+ "...") ;;
      success ← insert_data_to_table net NEW_SUPABASE_URL NEW_ANON_KEY
                  table_name transformed_data use_upsert;
      if success : bool
      then print ("✅ Successfully migrated " +:+ display_name)
      else print ("❌ Failed to migrate " +:+ display_name) ;;
           print "Continuing with next table..."
  | [] =>
      print ("⚠️  No data found in " +:+ display_name)
  end ;;
  print EmptyString.

(** The loop of [main] over a list of descriptors. *)
Definition migrate (descriptors : list descriptor) : io unit :=
  for_each descriptors migrate_table.

Definition main : io unit :=
  print "🚀 Starting Supabase Data Migration..." ;;
  print ("From: " +:+ OLD_PROJECT_ID) ;;
  print ("To: " +:+ NEW_PROJECT_ID) ;;
  print EmptyString ;;
  migrate tables ;;
  print "🎉 Migration completed!" ;;
  print "Check your new project to verify all data was migrated successfully.".

End Orchestrator.

(** ** Vocabulary for the properties *)

(** The read request the extractor sends for a table. *)
Definition get_request (project_url anon_key table_name : string) : request :=
  {| req_method := GET;
     req_url := project_url +:+ "/rest/v1/" +:+ table_name +:+ "?select=*";
     req_headers :=
       [ ("apikey", anon_key);
         ("Authorization", "Bearer " +:+ anon_key);
         ("Content-Type", "application/json");
         ("Prefer", "return=representation") ];
     req_json := None |}.

(** The write request the loader sends for one batch. *)
Definition post_request (project_url anon_key table_name : string)
    (use_upsert : bool) (batch : list row) : request :=
  {| req_method := POST;
     req_url := project_url +:+ "/rest/v1/" +:+ table_name;
     req_headers :=
       [ ("apikey", anon_key);
         ("Authorization", "Bearer " +:+ anon_key);
         ("Content-Type", "application/json");
         ("Prefer", if use_upsert
                    then "return=representation,resolution=merge-duplicates"
                    else "return=representation") ];
     req_json := Some batch |}.

(** The slices the loop of the loader takes, in the order it takes them. *)
Definition batches_of (data : list row) : list (list row) :=
  map (fun i => py_slice data i (i + batch_size))
      (py_range 0 (length data) batch_size).

(** A request fails when the call raises in transport or the response
    has a status [raise_for_status] rejects. *)
Definition http_error (r : response) : bool :=
  ((400 <=? status_code r) && (status_code r <? 600))%Z.

Definition failed (o : RequestException + response) : bool :=
  match o with
  | inl _ => true
  | inr r => http_error r
  end.

(** How many of [reqs], sent one after the other on top of the history
    [hist], are answered without failure before the first failure. *)
Fixpoint accepted (net : remote) (hist reqs : list request) : nat :=
  match reqs with
  | [] => 0
  | r :: rs =>
      if failed (net hist r) then 0
      else S (accepted net (hist ++ [r])%list rs)
  end.

(** What the extractor makes of the answer to its request. *)
Definition rows_of_answer (o : RequestException + response) : list row :=
  match o with
  | inl _ => []
  | inr r =>
      if http_error r then []
      else match json r with
           | inl _ => []
           | inr rows => rows
           end
  end.

Definition table_name (d : descriptor) : string := d.1.1.1.
Definition display_name (d : descriptor) : string := d.1.1.2.
Definition transform_func (d : descriptor) : list row -> list row := d.1.2.
Definition use_upsert (d : descriptor) : bool := d.2.

Definition set_display_name (name : string) (d : descriptor) : descriptor :=
  (table_name d, name, transform_func d, use_upsert d).

(** The rows the extractor returns for the source table of [d] when it
    is called after the requests [hist] have been sent. *)
Definition extracted (OLD_ANON_KEY : string) (net : remote)
    (hist : list request) (d : descriptor) : list row :=
  (get_data_from_table net OLD_SUPABASE_URL OLD_ANON_KEY (table_name d)
     (Sent <$> hist)).1.

(** The requests one pass of the loop of [main] sends for [d] after the
    requests [hist]: the read request, then, when rows came back, the
    write requests of the batches of the transformed rows up to and
    including the first that fails. *)
Definition table_requests (OLD_ANON_KEY NEW_ANON_KEY : string) (net : remote)
    (hist : list request) (d : descriptor) : list request :=
  let req := get_request OLD_SUPABASE_URL OLD_ANON_KEY (table_name d) in
  let data := rows_of_answer (net hist req) in
  let posts :=
    map (post_request NEW_SUPABASE_URL NEW_ANON_KEY (table_name d)
           (use_upsert d))
        (batches_of (transform_func d data)) in
  req :: match data with
         | [] => []
         | _ :: _ => take (S (accepted net (hist ++ [req])%list posts)) posts
         end.

Fixpoint migrate_requests (OLD_ANON_KEY NEW_ANON_KEY : string) (net : remote)
    (hist : list request) (ds : list descriptor) : list (list request) :=
  match ds with
  | [] => []
  | d :: ds' =>
      let seg := table_requests OLD_ANON_KEY NEW_ANON_KEY net hist d in
      seg :: migrate_requests OLD_ANON_KEY NEW_ANON_KEY net
               (hist ++ seg)%list ds'
  end.

(** Whether a request is a read request. *)
Definition is_get (r : request) : bool :=
  match req_method r with
  | GET => true
  | POST => false
  end.


(** The progress line the loader prints after a batch went through. *)
Definition inserted_line (tbl : string) (number : nat) (batch : list row)
    : string :=
  "Inserted batch " +:+ pretty number +:+ " for " +:+ tbl +:+
  " (" +:+ pretty (length batch) +:+ " records)".

(** What the loader leaves in the log for the batch number [j + 1] when
    its request goes through: the request, then the progress line. *)
Definition batch_events (project_url anon_key tbl : string) (upsert : bool)
    (j : nat) (batch : list row) : list event :=
  [ Sent (post_request project_url anon_key tbl upsert batch);
    Printed (inserted_line tbl (j + 1) batch) ].

(** What the handler of the loader prints for the exception [e]. *)
Definition failure_report (tbl : string) (e : RequestException) : list event :=
  Printed ("Error inserting data into " +:+ tbl +:+ ": " +:+ exc_str e)
  :: match exc_response e with
     | Some r => [Printed ("Response content: " +:+ text r)]
     | None => []
     end.

(** The slice the loop of the loader takes at start index [i]. *)
Definition batch_at (data : list row) (i : nat) : list row :=
  py_slice data i (i + batch_size).

(** One round of the loop of the loader, for the start index [i]. *)
Definition loader_step (net : remote) (project_url anon_key tbl : string)
    (data : list row) (upsert : bool) (i : nat) : attempt unit :=
  let batch := py_slice data i (i + batch_size) in
  response ← requests_post net
               (project_url +:+ "/rest/v1/" +:+ tbl)
               [ ("apikey", anon_key);
                 ("Authorization", "Bearer " +:+ anon_key);
                 ("Content-Type", "application/json");
                 ("Prefer",
                  if upsert
                  then "return=representation,resolution=merge-duplicates"
                  else "return=representation") ] batch;
  raise_for_status response ;;
  lift (print ("Inserted batch " +:+ pretty (i / batch_size + 1) +:+
               " for " +:+ tbl +:+
               " (" +:+ pretty (length batch) +:+ " records)")).

(** What a round of the loop leaves in the log when its request goes
    through. *)
Definition step_events (project_url anon_key tbl : string)
    (data : list row) (upsert : bool) (i : nat) : list event :=
  [ Sent (post_request project_url anon_key tbl upsert (batch_at data i));
    Printed (inserted_line tbl (i / batch_size + 1) (batch_at data i)) ].

(** Two descriptors whose display names differ from their table names. *)
Definition renamed_descriptors : list descriptor :=
  [ ("cat_app_users", "Users", Transform.transform_cat_app_users, false);
    ("cat_name_ratings", "Ratings", Transform.transform_cat_name_ratings,
     false) ].

(** ** Sample inputs *)

(** [{"user_name": "a", "name_id": "n1"}] *)
Definition sample_row : row :=
  dict_literal [ ("user_name", VStr "a"); ("name_id", VStr "n1") ].

(** [{"user_name": "a", "name_id": "n1", "rating": null}] *)
Definition null_rating_row : row :=
  dict_literal
    [ ("user_name", VStr "a"); ("name_id", VStr "n1"); ("rating", VNull) ].

(** A response with the given status and decoded body. *)
Definition sample_response (status : Z) (rows : list row) : response :=
  {| status_code := status; reason := "sample"; url := "sample";
     text := "sample"; json := inr rows |}.

(** A remote that answers every request with status 500. *)
Definition net_status_500 : remote :=
  fun _ _ => inr (sample_response 500 []).

(** A remote that answers every request with status 200 and the body
    [[sample_row]]. *)
Definition net_sample_row : remote :=
  fun _ _ => inr (sample_response 200 [sample_row]).

(** [{"user_name": "a", "name_id": "n1", "rating": 1500, "wins": 0,
      "losses": 0, "is_hidden": false, "rating_history": []}] *)
Definition sample_rating_row : row :=
  dict_literal
    [ ("user_name", VStr "a"); ("name_id", VStr "n1");
      ("rating", VInt 1500); ("wins", VInt 0); ("losses", VInt 0);
      ("is_hidden", VBool false); ("rating_history", VList []) ].

(** A remote that rejects the second request it receives with status 500
    and accepts every other one. *)
Definition net_second_fails : remote :=
  fun hist _ =>
    if Nat.eqb (length hist) 1
    then inr (sample_response 500 [])
    else inr (sample_response 200 []).

(** 120 rows. *)
Definition sample_rows_120 : list row := replicate 120 sample_row.

(** A remote whose table [cat_app_users] cannot be read (status 500),
    whose other tables each hold the row [sample_row], and which accepts
    every write. *)
Definition net_users_unreadable : remote :=
  fun _ r =>
    match req_method r with
    | GET =>
        if String.eqb (req_url r)
             (OLD_SUPABASE_URL +:+ "/rest/v1/cat_app_users?select=*")
        then inr (sample_response 500 [])
        else inr (sample_response 200 [sample_row])
    | POST => inr (sample_response 201 [])
    end.

(** ** Transformers: lemmas *)

Lemma default_preferences_literal :
  VDict (dict_literal
    [ ("sound_enabled", VBool true);
      ("theme_preference", VStr "dark");
      ("preferred_categories", VList []);
      ("rating_display_preference", VStr "elo");
      ("tournament_size_preference", VInt 8) ]) = default_preferences.
Proof. vm_compute. reflexivity. Qed.

Lemma transform_of_reshape (t : table) (data : list row) :
  transform_of t data = map (reshape (schema_of t)) data.
Proof. destruct t; reflexivity. Qed.

Lemma fold_insert_list_to_map (kvs : list (string * value)) (m : row) :
  fold_left (fun m kv => <[kv.1 := kv.2]> m) kvs m
  = list_to_map (reverse kvs) ∪ m.
Proof.
  revert m. induction kvs as [|[k v] kvs IH]; intros m; simpl.
  - by rewrite (left_id_L ∅ (∪)).
  - rewrite IH, reverse_cons, list_to_map_app. simpl.
    rewrite <- (assoc_L (∪)). f_equal.
    by rewrite <- insert_union_l, (left_id_L ∅ (∪)).
Qed.

Lemma dict_literal_list_to_map (kvs : list (string * value)) :
  dict_literal kvs = list_to_map (reverse kvs).
Proof.
  unfold dict_literal. rewrite fold_insert_list_to_map.
  apply (right_id_L ∅ (∪)).
Qed.

Lemma reshape_lookup (schema : list (string * value)) (item : row) k d :
  NoDup schema.*1 → (k, d) ∈ schema →
  reshape schema item !! k = Some (dict_get item k d).
Proof.
  intros Hnd Hin. unfold reshape. rewrite dict_literal_list_to_map.
  apply elem_of_list_to_map.
  - rewrite fmap_reverse, <- list_fmap_compose. simpl.
    rewrite reverse_Permutation. exact Hnd.
  - apply elem_of_reverse.
    apply (list_elem_of_fmap_2 (fun kd => (kd.1, dict_get item kd.1 kd.2)) _ (k, d)).
    exact Hin.
Qed.

Lemma reshape_dom (schema : list (string * value)) (item : row) :
  dom (reshape schema item) = list_to_set schema.*1.
Proof.
  unfold reshape. rewrite dict_literal_list_to_map, dom_list_to_map_L.
  rewrite fmap_reverse, <- list_fmap_compose. simpl.
  apply set_eq. intros k. rewrite !elem_of_list_to_set, elem_of_reverse.
  reflexivity.
Qed.

Lemma schema_keys_distinct (t : table) : NoDup (schema_of t).*1.
Proof. destruct t; simpl; apply NoDup_ListNoDup; repeat constructor;
  simpl; intuition discriminate. Qed.

Lemma transform_of_lookup (t : table) (data : list row) (i : nat) :
  transform_of t data !! i = reshape (schema_of t) <$> data !! i.
Proof. rewrite transform_of_reshape. apply list_lookup_fmap. Qed.

Lemma transform_row_fields (t : table) (data : list row) (i : nat) (item : row) :
  data !! i = Some item →
  ∃ out : row, transform_of t data !! i = Some out ∧
    ∀ (k : string) (d : value), (k, d) ∈ schema_of t →
      out !! k = Some (dict_get item k d).
Proof.
  intros Hi. exists (reshape (schema_of t) item). split.
  - rewrite transform_of_lookup, Hi. reflexivity.
  - intros k d Hin.
    apply (reshape_lookup _ _ _ _ (schema_keys_distinct t) Hin).
Qed.

(** ** Transformers: properties *)

(** C1.  Every transformer returns as many rows as it is given, in the
    same order (the row at index [i] of the output is made from the row
    at index [i] of the input), and each destination field of an output
    row holds the input row's value for that field when the input row has
    the field, and the field's default constant otherwise. *)
Theorem transform_rows_and_fields (t : table) (data : list row) :
  length (transform_of t data) = length data ∧
  ∀ (i : nat) (item : row), data !! i = Some item →
    ∃ out : row, transform_of t data !! i = Some out ∧
      ∀ (k : string) (d : value), (k, d) ∈ schema_of t →
        out !! k = Some (match item !! k with Some v => v | None => d end).
Proof.
  split.
  - rewrite transform_of_reshape. apply length_map.
  - intros i item Hi. exact (transform_row_fields t data i item Hi).
Qed.

Lemma transform_rows_and_fields_witness :
  length (transform_of CatNameRatings [sample_row; null_rating_row]) = 2 ∧
  ∃ out : row,
    transform_of CatNameRatings [sample_row; null_rating_row] !! 0 = Some out ∧
    out !! "user_name" = Some (VStr "a") ∧
    out !! "wins" = Some (VInt 0).
Proof.
  destruct (transform_rows_and_fields CatNameRatings
              [sample_row; null_rating_row]) as [Hlen Hrows].
  split; [exact Hlen|].
  destruct (Hrows 0 sample_row eq_refl) as (out & Hout & Hfields).
  exists out. split; [exact Hout|]. split.
  - apply (Hfields "user_name" (VStr EmptyString)).
    simpl. apply list_elem_of_here.
  - apply (Hfields "wins" (VInt 0)).
    simpl. do 3 apply list_elem_of_further. apply list_elem_of_here.
Defined.

(** C2, as stated, fails: a destination field that the input row carries
    with the value null is not replaced by its default.  The row
    [{"rating": null}] keeps [rating = null] through
    [transform_cat_name_ratings]. *)
Lemma null_field_is_not_defaulted :
  ¬ (∀ (t : table) (item out : row) (k : string) (d : value),
       transform_of t [item] = [out] →
       (k, d) ∈ schema_of t →
       item !! k = None ∨ item !! k = Some VNull →
       out !! k = Some d ∧ out !! k ≠ Some VNull).
Proof.
  intros H.
  destruct (H CatNameRatings null_rating_row
              (reshape (schema_of CatNameRatings) null_rating_row)
              "rating" (VInt 1500)) as [Hd _].
  - reflexivity.
  - simpl. do 2 apply list_elem_of_further. apply list_elem_of_here.
  - right. reflexivity.
  - vm_compute in Hd. discriminate Hd.
Qed.

(** C2, amended.  A destination field missing from the input row gets the
    field's default constant, which is never null; a destination field
    the input row carries with the value null stays null in the output
    row. *)
Theorem missing_field_defaulted_null_kept
    (t : table) (data : list row) (i : nat) (item : row)
    (k : string) (d : value) :
  data !! i = Some item →
  (k, d) ∈ schema_of t →
  ∃ out : row, transform_of t data !! i = Some out ∧
    (item !! k = None → out !! k = Some d) ∧
    (item !! k = Some VNull → out !! k = Some VNull) ∧
    d ≠ VNull.
Proof.
  intros Hi Hin.
  destruct (transform_row_fields t data i item Hi) as (out & Hout & Hf).
  exists out. split; [exact Hout|]. repeat split.
  - intros Hk. rewrite (Hf k d Hin). unfold dict_get. rewrite Hk. reflexivity.
  - intros Hk. rewrite (Hf k d Hin). unfold dict_get. rewrite Hk. reflexivity.
  - destruct t; simpl in Hin;
      repeat (apply elem_of_cons in Hin as [Hin|Hin];
              [injection Hin as _ ->; discriminate|]);
      by apply elem_of_nil in Hin.
Qed.

Lemma missing_field_defaulted_null_kept_witness :
  ∃ out : row,
    transform_of CatNameRatings [sample_row; null_rating_row] !! 1 = Some out ∧
    out !! "rating" = Some VNull.
Proof.
  destruct (missing_field_defaulted_null_kept CatNameRatings
              [sample_row; null_rating_row] 1 null_rating_row
              "rating" (VInt 1500)) as (out & Hout & _ & Hnull & _).
  - reflexivity.
  - simpl. do 2 apply list_elem_of_further. apply list_elem_of_here.
  - exists out. split; [exact Hout|]. apply Hnull. reflexivity.
Defined.

Lemma transform_of_row_dom (t : table) (data : list row) (i : nat)
    (item : row) :
  data !! i = Some item →
  ∃ out : row, transform_of t data !! i = Some out ∧ dom out = keys_of t.
Proof.
  intros Hi. exists (reshape (schema_of t) item). split.
  - rewrite transform_of_lookup, Hi. reflexivity.
  - apply reshape_dom.
Qed.

(** C9.  For every input row, whatever keys it has, the output row a
    transformer makes from it (the row at the same index of the output)
    has exactly the destination keys of its table: no key is missing and
    no other key (in particular no extra input key) occurs. *)
Theorem transform_output_keys (data : list row) (i : nat) (item : row) :
  data !! i = Some item →
  (∃ out : row,
     Transform.transform_cat_name_options data !! i = Some out ∧
     dom out = {[ "name"; "description"; "avg_rating"; "popularity_score";
                  "total_tournaments"; "is_active"; "categories" ]}) ∧
  (∃ out : row,
     Transform.transform_cat_app_users data !! i = Some out ∧
     dom out = {[ "user_name"; "preferences"; "tournament_data" ]}) ∧
  (∃ out : row,
     Transform.transform_cat_name_ratings data !! i = Some out ∧
     dom out = {[ "user_name"; "name_id"; "rating"; "wins"; "losses";
                  "is_hidden"; "rating_history" ]}) ∧
  (∃ out : row,
     Transform.transform_tournament_selections data !! i = Some out ∧
     dom out = {[ "user_name"; "name_id"; "name"; "tournament_id";
                  "selected_at"; "selection_type" ]}).
Proof.
  intros Hi.
  destruct (transform_of_row_dom CatNameOptions data i item Hi)
    as (o1 & Ho1 & Hd1).
  destruct (transform_of_row_dom CatAppUsers data i item Hi)
    as (o2 & Ho2 & Hd2).
  destruct (transform_of_row_dom CatNameRatings data i item Hi)
    as (o3 & Ho3 & Hd3).
  destruct (transform_of_row_dom TournamentSelections data i item Hi)
    as (o4 & Ho4 & Hd4).
  repeat split;
    [ exists o1; split; [exact Ho1|rewrite Hd1]
    | exists o2; split; [exact Ho2|rewrite Hd2]
    | exists o3; split; [exact Ho3|rewrite Hd3]
    | exists o4; split; [exact Ho4|rewrite Hd4] ];
    unfold keys_of; simpl; set_solver.
Qed.

Lemma transform_output_keys_witness :
  ∃ out : row,
    Transform.transform_cat_name_ratings [<["id" := VInt 7]> sample_row] !! 0
    = Some out ∧
    dom out = {[ "user_name"; "name_id"; "rating"; "wins"; "losses";
                 "is_hidden"; "rating_history" ]}.
Proof.
  destruct (transform_output_keys [<["id" := VInt 7]> sample_row] 0
              (<["id" := VInt 7]> sample_row) eq_refl) as (_ & _ & H & _).
  exact H.
Defined.

(** ** Effects: lemmas *)

Lemma requests_of_app (l1 l2 : list event) :
  requests_of (l1 ++ l2) = (requests_of l1 ++ requests_of l2)%list.
Proof. apply omap_app. Qed.

Lemma requests_of_print (log : list event) (line : string) :
  requests_of (log ++ [Printed line]) = requests_of log.
Proof. rewrite requests_of_app. simpl. apply app_nil_r. Qed.

Lemma requests_of_send (log : list event) (r : request) :
  requests_of (log ++ [Sent r]) = (requests_of log ++ [r])%list.
Proof. rewrite requests_of_app. reflexivity. Qed.

Lemma requests_of_Sent (rs : list request) : requests_of (Sent <$> rs) = rs.
Proof. induction rs as [|r rs IH]; [reflexivity|]. cbn. f_equal. exact IH. Qed.

Lemma http_error_status (r : response) :
  http_error r = true ↔ (400 ≤ status_code r < 600)%Z.
Proof. unfold http_error. rewrite andb_true_iff. lia. Qed.

Lemma raise_for_status_ok (r : response) (log : list event) :
  http_error r = false → raise_for_status r log = (inr tt, log).
Proof.
  unfold http_error, raise_for_status. intros H.
  destruct (400 <=? status_code r)%Z eqn:H4;
    destruct (status_code r <? 500)%Z eqn:H5;
    destruct (500 <=? status_code r)%Z eqn:H6;
    destruct (status_code r <? 600)%Z eqn:H7; simpl in *;
    try reflexivity; try discriminate; lia.
Qed.

Lemma raise_for_status_error (r : response) (log : list event) :
  http_error r = true →
  ∃ e, raise_for_status r log = (inl e, log) ∧ exc_response e = Some r.
Proof.
  unfold http_error, raise_for_status. intros H.
  destruct (400 <=? status_code r)%Z eqn:H4;
    destruct (status_code r <? 500)%Z eqn:H5;
    destruct (500 <=? status_code r)%Z eqn:H6;
    destruct (status_code r <? 600)%Z eqn:H7; simpl in *;
    try discriminate; try lia;
    eexists; (split; [reflexivity|reflexivity]).
Qed.

(** The extractor sends exactly one request and returns what
    [rows_of_answer] reads off the answer. *)
Lemma get_data_from_table_spec (net : remote)
    (project_url anon_key tbl : string) (log : list event) :
  let req := get_request project_url anon_key tbl in
  ∃ log', get_data_from_table net project_url anon_key tbl log
            = (rows_of_answer (net (requests_of log) req), log') ∧
          requests_of log' = (requests_of log ++ [req])%list.
Proof.
  intros req. unfold get_data_from_table, try_except, requests_get, send.
  unfold mbind, attempt_bind, io_bind, mret, io_ret, attempt_ret.
  fold (get_request project_url anon_key tbl). fold req.
  destruct (net (requests_of log) req) as [e|r] eqn:Hnet; simpl.
  - eexists. split; [reflexivity|].
    by rewrite requests_of_print, requests_of_send.
  - destruct (http_error r) eqn:Herr.
    + destruct (raise_for_status_error r (log ++ [Sent req]) Herr)
        as (e & -> & _). simpl.
      eexists. split; [reflexivity|].
      by rewrite requests_of_print, requests_of_send.
    + rewrite (raise_for_status_ok r _ Herr). unfold response_json.
      destruct (json r) as [msg|rows]; simpl.
      * eexists. split; [reflexivity|].
        by rewrite requests_of_print, requests_of_send.
      * eexists. split; [reflexivity|]. by rewrite requests_of_send.
Qed.

(** ** Extractor: properties *)

(** C5.  The extractor sends one read request for the table.  When the
    answer is a response whose status is not an error status and whose
    body decodes, the extractor returns the decoded rows as they are;
    when the call fails in transport, or the response has an error status
    (400 to 599, so 500 in particular), it returns the empty list.  The
    result is a returned list in every case: the handler catches the
    exception, nothing is raised to the caller. *)
Theorem extractor_rows_or_empty (net : remote)
    (project_url anon_key tbl : string) (log : list event) :
  let req := get_request project_url anon_key tbl in
  let answer := net (requests_of log) req in
  let run := get_data_from_table net project_url anon_key tbl log in
  requests_of run.2 = (requests_of log ++ [req])%list ∧
  (∀ r rows, answer = inr r → ¬ (400 ≤ status_code r < 600)%Z →
             json r = inr rows → run.1 = rows) ∧
  (∀ e, answer = inl e → run.1 = []) ∧
  (∀ r, answer = inr r → (400 ≤ status_code r < 600)%Z → run.1 = []) ∧
  (∀ r, answer = inr r → status_code r = 500%Z → run.1 = []).
Proof.
  intros req answer run.
  destruct (get_data_from_table_spec net project_url anon_key tbl log)
    as (log' & Hrun & Hreqs).
  fold req in Hrun, Hreqs. fold answer in Hrun. fold run in Hrun.
  rewrite Hrun. simpl. split; [exact Hreqs|].
  assert (Herr : ∀ r, answer = inr r → (400 ≤ status_code r < 600)%Z →
                      rows_of_answer answer = []).
  { intros r -> Hst. simpl. apply http_error_status in Hst.
    rewrite Hst. reflexivity. }
  repeat split.
  - intros r rows -> Hst Hjson. simpl.
    destruct (http_error r) eqn:Herr'.
    + apply http_error_status in Herr'. contradiction.
    + rewrite Hjson. reflexivity.
  - intros e ->. reflexivity.
  - exact Herr.
  - intros r Hr Hst. apply (Herr r Hr). lia.
Qed.

Lemma extractor_rows_or_empty_witness :
  (get_data_from_table net_status_500
     OLD_SUPABASE_URL "key" "cat_name_ratings" []).1 = [] ∧
  (get_data_from_table net_sample_row
     OLD_SUPABASE_URL "key" "cat_name_ratings" []).1 = [sample_row].
Proof.
  split.
  - destruct (extractor_rows_or_empty net_status_500
                OLD_SUPABASE_URL "key" "cat_name_ratings" [])
      as (_ & _ & _ & _ & H500).
    apply (H500 (sample_response 500 [])); reflexivity.
  - destruct (extractor_rows_or_empty net_sample_row
                OLD_SUPABASE_URL "key" "cat_name_ratings" [])
      as (_ & Hok & _).
    apply (Hok (sample_response 200 [sample_row]) [sample_row]).
    + reflexivity.
    + simpl. lia.
    + reflexivity.
Defined.

(** ** Loader: lemmas *)

Lemma accepted_le (net : remote) (hist reqs : list request) :
  (accepted net hist reqs ≤ length reqs)%nat.
Proof.
  revert hist. induction reqs as [|r rs IH]; intros hist; simpl; [lia|].
  destruct (failed (net hist r)); [lia|]. specialize (IH (hist ++ [r])%list). lia.
Qed.

Lemma accepted_first_failure (net : remote) (hist reqs : list request)
    (k : nat) (r : request) :
  reqs !! k = Some r →
  (∀ j rj, (j < k)%nat → reqs !! j = Some rj →
           failed (net (hist ++ take j reqs)%list rj) = false) →
  failed (net (hist ++ take k reqs)%list r) = true →
  accepted net hist reqs = k.
Proof.
  revert hist k. induction reqs as [|r0 rs IH]; intros hist k Hk Hok Hfail.
  - discriminate Hk.
  - destruct k as [|k]; simpl in *.
    + injection Hk as ->. rewrite app_nil_r in Hfail. by rewrite Hfail.
    + pose proof (Hok 0 r0 ltac:(lia) eq_refl) as H0. simpl in H0.
      rewrite app_nil_r in H0. rewrite H0. f_equal.
      apply (IH (hist ++ [r0])%list k Hk).
      * intros j rj Hj Hrj. rewrite <- app_assoc. simpl.
        apply (Hok (S j) rj); [lia|exact Hrj].
      * rewrite <- app_assoc. exact Hfail.
Qed.

Lemma accepted_all (net : remote) (hist reqs : list request) :
  (∀ j rj, reqs !! j = Some rj →
           failed (net (hist ++ take j reqs)%list rj) = false) →
  accepted net hist reqs = length reqs.
Proof.
  revert hist. induction reqs as [|r0 rs IH]; intros hist Hok; [reflexivity|].
  simpl. pose proof (Hok 0 r0 eq_refl) as H0. simpl in H0.
  rewrite app_nil_r in H0. rewrite H0. f_equal.
  apply IH. intros j rj Hrj. rewrite <- app_assoc. apply (Hok (S j) rj Hrj).
Qed.

Section LoaderLoop.

Variable net : remote.
Variables project_url anon_key tbl : string.
Variable data : list row.
Variable upsert : bool.

(** The loop of the loader, run over any list of start indices: it
    sends the write requests of the slices one after the other, up to
    and including the first one that fails. *)
Lemma post_loop_spec (idxs : list nat) (log : list event) :
  let reqs :=
    map (fun i => post_request project_url anon_key tbl upsert
                    (py_slice data i (i + batch_size))) idxs in
  let n := accepted net (requests_of log) reqs in
  ∃ o log',
    for_each (M := attempt) idxs (fun i =>
      let batch := py_slice data i (i + batch_size) in
      response ← requests_post net
                   (project_url +:+ "/rest/v1/" +:+ tbl)
                   [ ("apikey", anon_key);
                     ("Authorization", "Bearer " +:+ anon_key);
                     ("Content-Type", "application/json");
                     ("Prefer",
                      if upsert
                      then "return=representation,resolution=merge-duplicates"
                      else "return=representation") ] batch;
      raise_for_status response ;;
      lift (print ("Inserted batch " +:+ pretty (i / batch_size + 1) +:+
                   " for " +:+ tbl +:+
                   " (" +:+ pretty (length batch) +:+ " records)"))) log
    = (o, log') ∧
    requests_of log' = (requests_of log ++ take (S n) reqs)%list ∧
    match o with
    | inr _ => n = length reqs
    | inl _ => (n < length reqs)%nat
    end.
Proof.
  revert log. induction idxs as [|i idxs IH]; intros log reqs n.
  - exists (inr tt), log. split; [reflexivity|]. split; [|reflexivity].
    subst reqs n. simpl. by rewrite app_nil_r.
  - subst reqs n. cbn [map accepted for_each].
    set (r := post_request project_url anon_key tbl upsert
                (py_slice data i (i + batch_size))).
    change (requests_post net _ _ (py_slice data i (i + batch_size)))
      with (send net r).
    unfold mbind, attempt_bind, send.
    destruct (net (requests_of log) r) as [e|resp] eqn:Hnet; cbn [failed].
    + exists (inl e), (log ++ [Sent r])%list. split; [reflexivity|].
      split; [by rewrite requests_of_send|]. simpl. lia.
    + destruct (http_error resp) eqn:Herr.
      * destruct (raise_for_status_error resp (log ++ [Sent r])%list Herr)
          as (e & He & _).
        rewrite He.
        exists (inl e), (log ++ [Sent r])%list. split; [reflexivity|].
        split; [by rewrite requests_of_send|]. simpl. lia.
      * rewrite (raise_for_status_ok resp _ Herr).
        unfold lift, print.
        match goal with
        | |- context [for_each idxs ?b ?l] =>
            destruct (IH l) as (o & log' & Hrun & Hreqs & Ho)
        end.
        exists o, log'. split; [exact Hrun|].
        rewrite requests_of_print, requests_of_send in Hreqs, Ho.
        split.
        -- rewrite Hreqs, <- app_assoc. reflexivity.
        -- destruct o; simpl; lia.
Qed.

(** The loader on a non-empty list: it sends the write requests of the
    batches in order, up to and including the first that fails, and
    returns whether none failed. *)
Lemma insert_data_to_table_spec (log : list event) :
  data ≠ [] →
  let reqs :=
    map (post_request project_url anon_key tbl upsert) (batches_of data) in
  let n := accepted net (requests_of log) reqs in
  ∃ log',
    insert_data_to_table net project_url anon_key tbl data upsert log
      = (bool_decide (n = length reqs), log') ∧
    requests_of log' = (requests_of log ++ take (S n) reqs)%list.
Proof.
  intros Hne reqs n. unfold insert_data_to_table.
  destruct data as [|row0 rest] eqn:Hdata; [contradiction|].
  subst reqs n. rewrite <- Hdata.
  set (reqs := map (post_request project_url anon_key tbl upsert)
                   (batches_of data)).
  set (n := accepted net (requests_of log) reqs).
  unfold try_except.
  unfold mbind at 1. unfold attempt_bind at 1.
  pose proof (post_loop_spec (py_range 0 (length data) batch_size) log)
    as Hloop.
  cbv zeta in Hloop. destruct Hloop as (o & log' & Hrun & Hreqs & Ho).
  rewrite Hrun.
  assert (Hmap : map (fun i => post_request project_url anon_key tbl upsert
                     (py_slice data i (i + batch_size)))
                   (py_range 0 (length data) batch_size) = reqs).
  { subst reqs. unfold batches_of. rewrite map_map. reflexivity. }
  rewrite Hmap in Hreqs, Ho. fold n in Hreqs, Ho.
  destruct o as [e|[]].
  - unfold mbind, io_bind, mret, io_ret, print.
    rewrite bool_decide_eq_false_2 by lia.
    destruct (exc_response e) as [resp|]; eexists; (split; [reflexivity|]);
      by rewrite ?app_nil_r, ?requests_of_print.
  - rewrite bool_decide_eq_true_2 by exact Ho.
    exists log'. split; [reflexivity|exact Hreqs].
Qed.

End LoaderLoop.

(** ** Batches: lemmas *)

(** The slices of the loader's loop are the consecutive chunks of fifty
    rows. *)
Lemma batches_of_chunks (data : list row) :
  batches_of data
  = map (fun j => take 50 (drop (j * 50) data))
        (seq 0 ((length data + 49) / 50)).
Proof.
  unfold batches_of, py_range, py_slice, batch_size. rewrite map_map.
  replace (length data - 0 + 50 - 1) with (length data + 49) by lia.
  apply map_ext. intros j.
  replace (0 + j * 50 + 50 - (0 + j * 50)) with 50 by lia.
  reflexivity.
Qed.

Lemma chunks_concat {A : Type} (s c : nat) (l : list A) :
  (length l ≤ c * s)%nat →
  concat (map (fun j => take s (drop (j * s) l)) (seq 0 c)) = l.
Proof.
  revert l. induction c as [|c IH]; intros l Hlen.
  - destruct l; [reflexivity|simpl in Hlen; lia].
  - rewrite <- cons_seq, <- seq_shift. cbn [map concat]. rewrite map_map.
    rewrite drop_0.
    transitivity (take s l ++ drop s l)%list; [|apply take_drop].
    f_equal.
    transitivity (concat (map (fun j => take s (drop (j * s) (drop s l)))
                              (seq 0 c))).
    + f_equal. apply map_ext. intros j. rewrite drop_drop.
      repeat f_equal; lia.
    + apply IH. rewrite length_drop. lia.
Qed.

Lemma batches_concat (data : list row) : concat (batches_of data) = data.
Proof.
  rewrite batches_of_chunks. apply chunks_concat.
  pose proof (Nat.div_mod_eq (length data + 49) 50) as Hdiv.
  pose proof (Nat.mod_upper_bound (length data + 49) 50) as Hmod. lia.
Qed.

Lemma batches_sizes (data : list row) :
  Forall (fun b : list row => (1 ≤ length b ≤ 50)%nat) (batches_of data).
Proof.
  rewrite batches_of_chunks. apply Forall_forall. intros b Hb.
  apply list_elem_of_In, in_map_iff in Hb as (j & <- & Hj).
  apply in_seq in Hj. rewrite length_take, length_drop.
  pose proof (Nat.div_mod_eq (length data + 49) 50) as Hdiv.
  pose proof (Nat.mod_upper_bound (length data + 49) 50) as Hmod. lia.
Qed.

Lemma batches_count (data : list row) :
  length (batches_of data) = (length data + 49) / 50.
Proof. rewrite batches_of_chunks, length_map. apply length_seq. Qed.

Lemma batches_120 (data : list row) :
  length data = 120 → map length (batches_of data) = [50; 50; 20].
Proof.
  intros Hlen. rewrite batches_of_chunks, Hlen.
  change ((120 + 49) / 50) with 3. cbn [seq map].
  rewrite !length_take, !length_drop, Hlen. reflexivity.
Qed.

Lemma batches_of_nil : batches_of [] = [].
Proof. reflexivity. Qed.

Lemma batches_of_singleton (item : row) : batches_of [item] = [[item]].
Proof. reflexivity. Qed.

(** ** Loader: properties *)

(** C7.  Given an empty row list the loader returns [True] and sends no
    request, whether it is asked to insert or to upsert. *)
Theorem loader_empty_list (net : remote) (project_url anon_key tbl : string)
    (upsert : bool) (log : list event) :
  let run := insert_data_to_table net project_url anon_key tbl [] upsert log in
  run.1 = true ∧ requests_of run.2 = requests_of log.
Proof.
  simpl. unfold mbind, io_bind, mret, io_ret, print. simpl.
  split; [reflexivity|]. apply requests_of_print.
Qed.

(** C3.  When the write request of batch [k] is the first to fail (in
    transport, or with an error status), the loader returns [False] and
    the requests it has sent are exactly the write requests of batches
    [0] to [k], in order: no later batch is sent, and nothing is sent to
    undo the batches that succeeded.  In particular, with three batches
    of which the second fails, exactly the first two requests are sent. *)
Theorem loader_stops_at_first_failure (net : remote)
    (project_url anon_key tbl : string) (data : list row) (upsert : bool)
    (log : list event) (k : nat) (r : request) :
  let reqs :=
    map (post_request project_url anon_key tbl upsert) (batches_of data) in
  let hist := requests_of log in
  let run :=
    insert_data_to_table net project_url anon_key tbl data upsert log in
  reqs !! k = Some r →
  (∀ j rj, (j < k)%nat → reqs !! j = Some rj →
           failed (net (hist ++ take j reqs)%list rj) = false) →
  failed (net (hist ++ take k reqs)%list r) = true →
  run.1 = false ∧
  requests_of run.2 = (hist ++ take (S k) reqs)%list ∧
  (∀ r0 r1 r2, reqs = [r0; r1; r2] → k = 1 →
               requests_of run.2 = (hist ++ [r0; r1])%list).
Proof.
  intros reqs hist run Hk Hok Hfail.
  assert (Hne : data ≠ []).
  { intros ->. subst reqs. rewrite batches_of_nil in Hk. discriminate Hk. }
  destruct (insert_data_to_table_spec net project_url anon_key tbl data
              upsert log Hne) as (log' & Hrun & Hreqs).
  fold reqs hist in Hrun, Hreqs. fold run in Hrun.
  rewrite (accepted_first_failure net hist reqs k r Hk Hok Hfail)
    in Hrun, Hreqs.
  rewrite Hrun. cbn [fst snd].
  apply lookup_lt_Some in Hk as Hlt.
  split; [apply bool_decide_eq_false_2; lia|].
  split; [exact Hreqs|].
  intros r0 r1 r2 Heq ->. rewrite Hreqs, Heq. reflexivity.
Qed.

Lemma loader_stops_at_first_failure_witness :
  (insert_data_to_table net_second_fails NEW_SUPABASE_URL "key"
     "cat_name_ratings" sample_rows_120 false []).1 = false ∧
  length (requests_of
            (insert_data_to_table net_second_fails NEW_SUPABASE_URL "key"
               "cat_name_ratings" sample_rows_120 false []).2) = 2.
Proof.
  destruct (loader_stops_at_first_failure net_second_fails NEW_SUPABASE_URL
              "key" "cat_name_ratings" sample_rows_120 false [] 1
              (post_request NEW_SUPABASE_URL "key" "cat_name_ratings" false
                 (replicate 50 sample_row)))
    as (Hres & Hreqs & _).
  - reflexivity.
  - intros j rj Hj _. destruct j as [|j]; [reflexivity|lia].
  - reflexivity.
  - split; [exact Hres|]. rewrite Hreqs. reflexivity.
Defined.

(** C4.  For a non-empty row list the loader cuts the rows into
    consecutive batches of at least one and at most fifty rows whose
    concatenation is the list, and sends one write request per batch, in
    that order: the requests sent are always a prefix of the batches'
    requests, and all of them when no request fails.  A list of 120 rows
    gives three batches of 50, 50 and 20 rows, hence three requests of
    those sizes. *)
Theorem loader_batches (net : remote)
    (project_url anon_key tbl : string) (data : list row) (upsert : bool)
    (log : list event) :
  let bs := batches_of data in
  let reqs := map (post_request project_url anon_key tbl upsert) bs in
  let hist := requests_of log in
  let run :=
    insert_data_to_table net project_url anon_key tbl data upsert log in
  data ≠ [] →
  concat bs = data ∧
  Forall (fun b : list row => (1 ≤ length b ≤ 50)%nat) bs ∧
  (∃ k, (1 ≤ k ≤ length reqs)%nat ∧
        requests_of run.2 = (hist ++ take k reqs)%list) ∧
  ((∀ j rj, reqs !! j = Some rj →
            failed (net (hist ++ take j reqs)%list rj) = false) →
   run.1 = true ∧ requests_of run.2 = (hist ++ reqs)%list) ∧
  (length data = 120 →
   map length bs = [50; 50; 20] ∧
   ((∀ j rj, reqs !! j = Some rj →
             failed (net (hist ++ take j reqs)%list rj) = false) →
    ∃ r1 r2 r3,
      requests_of run.2 = (hist ++ [r1; r2; r3])%list ∧
      (length <$> req_json r1, length <$> req_json r2,
       length <$> req_json r3) = (Some 50, Some 50, Some 20))).
Proof.
  intros bs reqs hist run Hne.
  destruct (insert_data_to_table_spec net project_url anon_key tbl data
              upsert log Hne) as (log' & Hrun & Hreqs).
  fold bs reqs hist in Hrun, Hreqs. fold run in Hrun.
  rewrite Hrun. cbn [fst snd].
  pose proof (accepted_le net hist reqs) as Hle.
  assert (Hall : (∀ j rj, reqs !! j = Some rj →
                    failed (net (hist ++ take j reqs)%list rj) = false) →
                 bool_decide (accepted net hist reqs = length reqs) = true ∧
                 requests_of log' = (hist ++ reqs)%list).
  { intros Hok. rewrite (accepted_all net hist reqs Hok) in Hreqs |- *.
    split; [by apply bool_decide_eq_true_2|].
    rewrite Hreqs, take_ge by lia. reflexivity. }
  assert (Hpos : (1 ≤ length reqs)%nat).
  { subst reqs bs. rewrite length_map, batches_count.
    destruct data as [|x l]; [contradiction|]. cbn [length].
    pose proof (Nat.div_mod_eq (S (length l) + 49) 50).
    pose proof (Nat.mod_upper_bound (S (length l) + 49) 50). lia. }
  split; [apply batches_concat|].
  split; [apply batches_sizes|].
  split.
  { exists (Nat.min (S (accepted net hist reqs)) (length reqs)).
    split; [lia|]. rewrite Hreqs. f_equal.
    destruct (decide (accepted net hist reqs = length reqs)) as [Heq|Hneq].
    - rewrite Heq, Nat.min_r by lia. rewrite !take_ge by lia. reflexivity.
    - rewrite Nat.min_l by lia. reflexivity. }
  split; [exact Hall|].
  intros Hlen. pose proof (batches_120 data Hlen) as Hsizes.
  fold bs in Hsizes. split; [exact Hsizes|].
  intros Hok. destruct (Hall Hok) as [_ Hsent].
  destruct bs as [|b1 [|b2 [|b3 [|b4 bs']]]]; try discriminate Hsizes.
  injection Hsizes as H1 H2 H3.
  eexists _, _, _. split; [exact Hsent|]. simpl. by rewrite H1, H2, H3.
Qed.

Lemma loader_batches_witness :
  (insert_data_to_table net_sample_row NEW_SUPABASE_URL "key"
     "cat_name_ratings" sample_rows_120 false []).1 = true ∧
  map (fun r => length <$> req_json r)
      (requests_of
         (insert_data_to_table net_sample_row NEW_SUPABASE_URL "key"
            "cat_name_ratings" sample_rows_120 false []).2)
  = [Some 50; Some 50; Some 20].
Proof.
  destruct (loader_batches net_sample_row NEW_SUPABASE_URL "key"
              "cat_name_ratings" sample_rows_120 false [])
    as (_ & _ & _ & Hall & H120).
  - discriminate.
  - split.
    + apply Hall. intros j rj _. reflexivity.
    + destruct (H120 eq_refl) as [_ Hsent].
      destruct Hsent as (r1 & r2 & r3 & -> & Hsizes).
      * intros j rj _. reflexivity.
      * injection Hsizes as H1 H2 H3.
        change (requests_of []) with (@nil request). cbn [app map].
        rewrite H1, H2, H3. reflexivity.
Defined.

(** C8.  [transform_cat_name_ratings] maps the single row
    [{"user_name":"a","name_id":"n1"}] to the single row with the
    defaults [rating = 1500], [wins = 0], [losses = 0],
    [is_hidden = false], [rating_history = []] filled in, and the loader,
    given that row, sends exactly one write request, whose body is the
    one-element list holding it. *)
Theorem ratings_scenario :
  Transform.transform_cat_name_ratings [sample_row] = [sample_rating_row] ∧
  ∀ (net : remote) (project_url anon_key tbl : string) (upsert : bool)
    (log : list event),
    requests_of (insert_data_to_table net project_url anon_key tbl
                   [sample_rating_row] upsert log).2
    = (requests_of log ++
       [post_request project_url anon_key tbl upsert [sample_rating_row]])%list.
Proof.
  split.
  - vm_compute. reflexivity.
  - intros net project_url anon_key tbl upsert log.
    destruct (insert_data_to_table_spec net project_url anon_key tbl
                [sample_rating_row] upsert log) as (log' & Hrun & Hreqs);
      [discriminate|].
    rewrite Hrun. cbn [snd]. rewrite Hreqs, batches_of_singleton.
    cbn [map]. f_equal. apply take_ge. simpl. lia.
Qed.

(** ** Orchestrator: lemmas *)

Section OrchestratorFacts.

Variables OLD_ANON_KEY NEW_ANON_KEY : string.
Variable net : remote.

Lemma extracted_answer (hist : list request) (d : descriptor) :
  extracted OLD_ANON_KEY net hist d
  = rows_of_answer
      (net hist (get_request OLD_SUPABASE_URL OLD_ANON_KEY (table_name d))).
Proof.
  unfold extracted.
  destruct (get_data_from_table_spec net OLD_SUPABASE_URL OLD_ANON_KEY
              (table_name d) (Sent <$> hist)) as (log' & -> & _).
  by rewrite requests_of_Sent.
Qed.

(** The requests of a loader call, for any row list. *)
Lemma insert_data_to_table_requests (project_url anon_key tbl : string)
    (data : list row) (upsert : bool) (log : list event) :
  let reqs :=
    map (post_request project_url anon_key tbl upsert) (batches_of data) in
  requests_of
    (insert_data_to_table net project_url anon_key tbl data upsert log).2
  = (requests_of log
     ++ take (S (accepted net (requests_of log) reqs)) reqs)%list.
Proof.
  intros reqs. destruct (decide (data = [])) as [->|Hne].
  - subst reqs. simpl. unfold mbind, io_bind, mret, io_ret, print. simpl.
    by rewrite requests_of_print, app_nil_r.
  - destruct (insert_data_to_table_spec net project_url anon_key tbl data
                upsert log Hne) as (log' & -> & Hreqs).
    exact Hreqs.
Qed.

Lemma migrate_table_requests (d : descriptor) (log : list event) :
  requests_of (migrate_table OLD_ANON_KEY NEW_ANON_KEY net d log).2
  = (requests_of log
     ++ table_requests OLD_ANON_KEY NEW_ANON_KEY net (requests_of log) d)%list.
Proof.
  destruct d as [[[tn dn] tf] up].
  unfold migrate_table, table_requests, table_name, use_upsert,
    transform_func. cbn [fst snd].
  unfold mbind, io_bind.
  unfold print at 1.
  destruct (get_data_from_table_spec net OLD_SUPABASE_URL OLD_ANON_KEY tn
              (log ++ [Printed ("📤 Extracting data from " +:+ dn +:+ "...")]))
    as (log1 & Hrun & Hreqs).
  rewrite requests_of_print in Hrun, Hreqs. rewrite Hrun.
  set (req := get_request OLD_SUPABASE_URL OLD_ANON_KEY tn) in *.
  destruct (rows_of_answer (net (requests_of log) req)) as [|x l] eqn:Hdata.
  - unfold print. cbn [snd].
    by rewrite !requests_of_print, Hreqs.
  - rewrite <- Hdata. unfold print at 1 2 3.
    match goal with
    | |- context [insert_data_to_table net ?u ?k ?t ?dt ?b ?l0] =>
        pose proof (insert_data_to_table_requests u k t dt b l0) as Hins;
        destruct (insert_data_to_table net u k t dt b l0) as [ok log2]
    end.
    cbn [snd] in Hins. cbv zeta in Hins.
    rewrite !requests_of_print, Hreqs in Hins.
    destruct ok; unfold print; cbn [snd];
      rewrite !requests_of_print, Hins, <- app_assoc; reflexivity.
Qed.

Lemma migrate_requests_spec (ds : list descriptor) (log : list event) :
  requests_of (migrate OLD_ANON_KEY NEW_ANON_KEY net ds log).2
  = (requests_of log
     ++ concat (migrate_requests OLD_ANON_KEY NEW_ANON_KEY net
                  (requests_of log) ds))%list.
Proof.
  revert log. induction ds as [|d ds IH]; intros log.
  - simpl. by rewrite app_nil_r.
  - unfold migrate. cbn [for_each migrate_requests concat].
    unfold mbind, io_bind.
    pose proof (migrate_table_requests d log) as Hd.
    destruct (migrate_table OLD_ANON_KEY NEW_ANON_KEY net d log)
      as [[] log1].
    cbn [snd] in Hd.
    transitivity
      (requests_of log1
       ++ concat (migrate_requests OLD_ANON_KEY NEW_ANON_KEY net
                    (requests_of log1) ds))%list.
    + exact (IH log1).
    + rewrite Hd, <- app_assoc. reflexivity.
Qed.

Lemma main_requests (log : list event) :
  requests_of (main OLD_ANON_KEY NEW_ANON_KEY net log).2
  = (requests_of log
     ++ concat (migrate_requests OLD_ANON_KEY NEW_ANON_KEY net
                  (requests_of log) tables))%list.
Proof.
  unfold main. unfold mbind, io_bind. unfold print at 1 2 3 4.
  match goal with
  | |- context [migrate _ _ _ tables ?l0] =>
      pose proof (migrate_requests_spec tables l0) as Hm;
      destruct (migrate OLD_ANON_KEY NEW_ANON_KEY net tables l0)
        as [[] log1]
  end.
  cbn [snd] in Hm. rewrite !requests_of_print in Hm.
  unfold print. cbn [snd]. by rewrite !requests_of_print.
Qed.

End OrchestratorFacts.

Section OrchestratorStructure.

Variables OLD_ANON_KEY NEW_ANON_KEY : string.
Variable net : remote.

Lemma migrate_requests_length (hist : list request) (ds : list descriptor) :
  length (migrate_requests OLD_ANON_KEY NEW_ANON_KEY net hist ds)
  = length ds.
Proof.
  revert hist. induction ds as [|d ds IH]; intros hist; simpl;
    [|rewrite IH]; reflexivity.
Qed.

(** Segment [i] is what the pass for descriptor [i] sends after all the
    earlier segments. *)
Lemma migrate_requests_lookup (hist : list request) (ds : list descriptor)
    (i : nat) (d : descriptor) :
  ds !! i = Some d →
  migrate_requests OLD_ANON_KEY NEW_ANON_KEY net hist ds !! i
  = Some (table_requests OLD_ANON_KEY NEW_ANON_KEY net
            (hist ++ concat (take i (migrate_requests OLD_ANON_KEY
                                       NEW_ANON_KEY net hist ds)))%list d).
Proof.
  revert hist i. induction ds as [|d0 ds IH]; intros hist i Hi.
  - discriminate Hi.
  - destruct i as [|i]; cbn [migrate_requests].
    + injection Hi as ->. simpl. by rewrite app_nil_r.
    + cbn [lookup list_lookup take concat]. simpl in Hi.
      rewrite (IH _ i Hi), <- app_assoc. reflexivity.
Qed.

(** A pass sends the read request first and then write requests only;
    there are write requests exactly when rows were read and the
    transformer returned rows for them. *)
Lemma table_requests_shape (hist : list request) (d : descriptor) :
  let req := get_request OLD_SUPABASE_URL OLD_ANON_KEY (table_name d) in
  let data := rows_of_answer (net hist req) in
  ∃ posts,
    table_requests OLD_ANON_KEY NEW_ANON_KEY net hist d = req :: posts ∧
    Forall (fun r => ∃ batch,
              r = post_request NEW_SUPABASE_URL NEW_ANON_KEY (table_name d)
                    (use_upsert d) batch) posts ∧
    (data = [] → posts = []) ∧
    (transform_func d data ≠ [] → data ≠ [] → posts ≠ []).
Proof.
  intros req data. unfold table_requests. fold req. fold data.
  destruct data as [|x l] eqn:Hdata.
  - exists []. repeat split; [constructor|contradiction].
  - eexists. split; [reflexivity|]. split; [|split; [discriminate|]].
    + apply Forall_forall. intros r Hr.
      apply subseteq_take in Hr.
      apply list_elem_of_In, in_map_iff in Hr as (batch & <- & _).
      exists batch. reflexivity.
    + intros Htf _.
      destruct (batches_of (transform_func d (x :: l))) as [|b bs] eqn:Hb.
      * exfalso. apply Htf.
        rewrite <- (batches_concat (transform_func d (x :: l))), Hb.
        reflexivity.
      * simpl. discriminate.
Qed.

Lemma table_requests_display (name : string) (hist : list request)
    (d : descriptor) :
  table_requests OLD_ANON_KEY NEW_ANON_KEY net hist (set_display_name name d)
  = table_requests OLD_ANON_KEY NEW_ANON_KEY net hist d.
Proof. destruct d as [[[tn dn] tf] up]. reflexivity. Qed.

Lemma migrate_requests_display (f : descriptor → string)
    (hist : list request) (ds : list descriptor) :
  migrate_requests OLD_ANON_KEY NEW_ANON_KEY net hist
    (map (fun d => set_display_name (f d) d) ds)
  = migrate_requests OLD_ANON_KEY NEW_ANON_KEY net hist ds.
Proof.
  revert hist. induction ds as [|d ds IH]; intros hist; [reflexivity|].
  cbn [map migrate_requests]. rewrite table_requests_display, IH.
  reflexivity.
Qed.

End OrchestratorStructure.

Lemma tables_transform_nonempty (d : descriptor) (data : list row) :
  d ∈ tables → data ≠ [] → transform_func d data ≠ [].
Proof.
  intros Hd Hne. unfold tables in Hd.
  repeat (apply elem_of_cons in Hd as [->|Hd];
          [destruct data; [contradiction|discriminate]|]).
  by apply elem_of_nil in Hd.
Qed.

Lemma migrate_table_no_data (OLD_ANON_KEY NEW_ANON_KEY : string)
    (net : remote) (d : descriptor) (log : list event) :
  let start :=
    (log ++ [Printed ("📤 Extracting data from " +:+ display_name d +:+ "...")])%list in
  let extraction :=
    get_data_from_table net OLD_SUPABASE_URL OLD_ANON_KEY (table_name d) start in
  extraction.1 = [] →
  (migrate_table OLD_ANON_KEY NEW_ANON_KEY net d log).2
  = (extraction.2 ++ [Printed ("⚠️  No data found in " +:+ display_name d);
                      Printed EmptyString])%list.
Proof.
  destruct d as [[[tn dn] tf] up].
  unfold migrate_table, table_name, display_name. cbn [fst snd].
  unfold mbind, io_bind. unfold print at 1.
  destruct (get_data_from_table net OLD_SUPABASE_URL OLD_ANON_KEY tn _)
    as [data log1].
  cbn [fst snd]. intros ->. unfold print. cbn [snd].
  rewrite <- app_assoc. reflexivity.
Qed.

(** ** Orchestrator: properties *)

(** C6.  Whatever the remote answers, the requests of a run of [main]
    split into one segment per table descriptor, in the listed order.
    Each segment starts with the read request for the descriptor's table,
    so every descriptor is attempted whatever happened to the earlier
    ones; the read request is followed by write requests only, and there
    are some exactly when the extraction returned rows.  When the
    extraction returns no rows, the pass for the descriptor does nothing
    after it but print the "no data" line and a blank line: the loader is
    not called. *)
Theorem main_attempts_every_table (OLD_ANON_KEY NEW_ANON_KEY : string)
    (net : remote) (log : list event) :
  (∃ segs : list (list request),
     length segs = length tables ∧
     requests_of (main OLD_ANON_KEY NEW_ANON_KEY net log).2
     = (requests_of log ++ concat segs)%list ∧
     ∀ (i : nat) (d : descriptor) (seg : list request),
       tables !! i = Some d → segs !! i = Some seg →
       let hist := (requests_of log ++ concat (take i segs))%list in
       ∃ posts : list request,
         seg = get_request OLD_SUPABASE_URL OLD_ANON_KEY (table_name d)
               :: posts ∧
         Forall (fun r => req_method r = POST) posts ∧
         (extracted OLD_ANON_KEY net hist d = [] → posts = []) ∧
         (extracted OLD_ANON_KEY net hist d ≠ [] → posts ≠ [])) ∧
  (∀ (d : descriptor) (log0 : list event),
     let start :=
       (log0 ++ [Printed ("📤 Extracting data from " +:+ display_name d
                          +:+ "...")])%list in
     let extraction :=
       get_data_from_table net OLD_SUPABASE_URL OLD_ANON_KEY (table_name d)
         start in
     extraction.1 = [] →
     (migrate_table OLD_ANON_KEY NEW_ANON_KEY net d log0).2
     = (extraction.2
        ++ [Printed ("⚠️  No data found in " +:+ display_name d);
            Printed EmptyString])%list).
Proof.
  split; [|exact (migrate_table_no_data OLD_ANON_KEY NEW_ANON_KEY net)].
  set (segs := migrate_requests OLD_ANON_KEY NEW_ANON_KEY net
                 (requests_of log) tables).
  exists segs. split; [apply migrate_requests_length|].
  split; [apply main_requests|].
  intros i d seg Hd Hseg hist.
  subst segs.
  rewrite (migrate_requests_lookup _ _ _ _ _ i d Hd) in Hseg.
  injection Hseg as <-. fold hist.
  destruct (table_requests_shape OLD_ANON_KEY NEW_ANON_KEY net hist d)
    as (posts & Heq & Hposts & Hnone & Hsome).
  exists posts. split; [exact Heq|]. rewrite extracted_answer.
  split; [|split; [exact Hnone|]].
  - eapply Forall_impl; [exact Hposts|]. intros r [batch ->]. reflexivity.
  - intros Hne. apply Hsome; [|exact Hne].
    apply tables_transform_nonempty; [|exact Hne].
    by apply list_elem_of_lookup_2 in Hd.
Qed.

Lemma main_attempts_every_table_witness :
  ∃ segs : list (list request),
    length segs = 4 ∧
    requests_of (main "old-key" "new-key" net_users_unreadable []).2
    = concat segs ∧
    segs !! 1
    = Some [get_request OLD_SUPABASE_URL "old-key" "cat_app_users"] ∧
    ∃ posts : list request,
      segs !! 2
      = Some (get_request OLD_SUPABASE_URL "old-key" "cat_name_ratings"
              :: posts) ∧
      posts ≠ [].
Proof.
  destruct (main_attempts_every_table "old-key" "new-key"
              net_users_unreadable []) as [(segs & Hlen & Hreqs & Hsegs) _].
  exists segs. split; [exact Hlen|]. split; [exact Hreqs|].
  destruct segs as [|s0 [|s1 [|s2 [|s3 [|s4 segs]]]]]; try discriminate Hlen.
  split.
  - destruct (Hsegs 1 _ s1 eq_refl eq_refl) as (posts & -> & _ & Hnone & _).
    rewrite (Hnone eq_refl). reflexivity.
  - destruct (Hsegs 2 _ s2 eq_refl eq_refl) as (posts & -> & _ & _ & Hsome).
    exists posts. split; [reflexivity|]. apply Hsome. discriminate.
Defined.

Lemma table_requests_own (OLD_ANON_KEY NEW_ANON_KEY : string)
    (net : remote) (hist : list request) (d : descriptor) :
  let data := extracted OLD_ANON_KEY net hist d in
  ∃ (g : request) (posts : list request),
    table_requests OLD_ANON_KEY NEW_ANON_KEY net hist d = g :: posts ∧
    req_method g = GET ∧
    req_url g = OLD_SUPABASE_URL +:+ "/rest/v1/" +:+ d.1.1.1 +:+ "?select=*" ∧
    Forall (fun r =>
              req_method r = POST ∧
              req_url r = NEW_SUPABASE_URL +:+ "/rest/v1/" +:+ d.1.1.1 ∧
              ∃ batch, batch ∈ batches_of (d.1.2 data) ∧
                       req_json r = Some batch) posts ∧
    (data = [] → posts = []) ∧
    (data ≠ [] → d.1.2 data ≠ [] → posts ≠ []).
Proof.
  intros data. subst data. rewrite extracted_answer.
  unfold table_requests.
  set (req := get_request OLD_SUPABASE_URL OLD_ANON_KEY (table_name d)).
  eexists req, _. split; [reflexivity|].
  split; [reflexivity|]. split; [reflexivity|].
  destruct (rows_of_answer (net hist req)) as [|x l] eqn:Hdata.
  - split; [constructor|]. split; [reflexivity|contradiction].
  - split; [|split; [discriminate|]].
    + apply Forall_forall. intros r Hr. apply subseteq_take in Hr.
      apply list_elem_of_In, in_map_iff in Hr as (batch & <- & Hb).
      split; [reflexivity|]. split; [reflexivity|].
      exists batch. split; [by apply list_elem_of_In|reflexivity].
    + intros _ Htf.
      change (transform_func d (x :: l)) with (d.1.2 (x :: l)).
      destruct (batches_of (d.1.2 (x :: l))) as [|b bs] eqn:Hb.
      * exfalso. apply Htf.
        rewrite <- (batches_concat (d.1.2 (x :: l))), Hb. reflexivity.
      * simpl. discriminate.
Qed.

(** C10.  In the loop of [main], run over any list of descriptors, the
    requests split into one segment per descriptor, in order, and the
    segment of a descriptor uses that descriptor's first component (its
    source table name) and no other name: it starts with the read request
    to [/rest/v1/{first component}?select=*] at the old project, and
    every request after it is a write request to
    [/rest/v1/{first component}] at the new project carrying a batch of
    that descriptor's transformed rows; there is such a write request
    whenever the extraction and the transformer returned rows.  The
    second component (the display name) reaches no request: replacing the
    display names by any others leaves the requests of the run
    unchanged. *)
Theorem requests_use_table_name (OLD_ANON_KEY NEW_ANON_KEY : string)
    (net : remote) (ds : list descriptor) (log : list event) :
  (∃ segs : list (list request),
     length segs = length ds ∧
     requests_of (migrate OLD_ANON_KEY NEW_ANON_KEY net ds log).2
     = (requests_of log ++ concat segs)%list ∧
     ∀ (i : nat) (d : descriptor) (seg : list request),
       ds !! i = Some d → segs !! i = Some seg →
       let hist := (requests_of log ++ concat (take i segs))%list in
       let data := extracted OLD_ANON_KEY net hist d in
       ∃ (g : request) (posts : list request),
         seg = g :: posts ∧
         req_method g = GET ∧
         req_url g = OLD_SUPABASE_URL +:+ "/rest/v1/" +:+ d.1.1.1
                     +:+ "?select=*" ∧
         Forall (fun r =>
                   req_method r = POST ∧
                   req_url r = NEW_SUPABASE_URL +:+ "/rest/v1/" +:+ d.1.1.1 ∧
                   ∃ batch, batch ∈ batches_of (d.1.2 data) ∧
                            req_json r = Some batch) posts ∧
         (data = [] → posts = []) ∧
         (data ≠ [] → d.1.2 data ≠ [] → posts ≠ [])) ∧
  (∀ f : descriptor → string,
     requests_of
       (migrate OLD_ANON_KEY NEW_ANON_KEY net
          (map (fun d => (d.1.1.1, f d, d.1.2, d.2)) ds) log).2
     = requests_of (migrate OLD_ANON_KEY NEW_ANON_KEY net ds log).2).
Proof.
  split.
  - exists (migrate_requests OLD_ANON_KEY NEW_ANON_KEY net
              (requests_of log) ds).
    split; [apply migrate_requests_length|].
    split; [apply migrate_requests_spec|].
    intros i d seg Hd Hseg hist data.
    rewrite (migrate_requests_lookup _ _ _ _ _ i d Hd) in Hseg.
    injection Hseg as <-.
    exact (table_requests_own OLD_ANON_KEY NEW_ANON_KEY net hist d).
  - intros f. rewrite !migrate_requests_spec.
    f_equal. f_equal.
    apply (migrate_requests_display OLD_ANON_KEY NEW_ANON_KEY net f).
Qed.

Lemma requests_use_table_name_witness :
  ∃ segs : list (list request),
    requests_of
      (migrate "old-key" "new-key" net_sample_row renamed_descriptors []).2
    = concat segs ∧
    ∃ (g : request) (posts : list request),
      segs !! 1 = Some (g :: posts) ∧
      req_url g
      = OLD_SUPABASE_URL +:+ "/rest/v1/cat_name_ratings?select=*" ∧
      posts ≠ [] ∧
      Forall (fun r => req_url r
                       = NEW_SUPABASE_URL +:+ "/rest/v1/cat_name_ratings")
             posts.
Proof.
  destruct (requests_use_table_name "old-key" "new-key" net_sample_row
              renamed_descriptors []) as [(segs & Hlen & Hreqs & Hsegs) _].
  exists segs. split; [exact Hreqs|].
  destruct segs as [|s0 [|s1 [|s2 segs]]]; try discriminate Hlen.
  destruct (Hsegs 1 _ s1 eq_refl eq_refl)
    as (g & posts & -> & _ & Hurl & Hposts & _ & Hsome).
  exists g, posts. split; [reflexivity|]. split; [exact Hurl|].
  split.
  - apply Hsome; discriminate.
  - eapply Forall_impl; [exact Hposts|]. intros r (_ & Hr & _). exact Hr.
Defined.


(** * Further properties of the migration script *)

(** ** Transformers: re-running, conforming rows, foreign fields *)

Lemma reshape_lookup_other (schema : list (string * value)) (item : row)
    (k : string) :
  k ∉ schema.*1 → reshape schema item !! k = None.
Proof.
  intros Hk. apply not_elem_of_dom. rewrite reshape_dom.
  by rewrite elem_of_list_to_set.
Qed.

Lemma reshape_agree (schema : list (string * value)) (a b : row) :
  NoDup schema.*1 →
  (∀ k, k ∈ schema.*1 → a !! k = b !! k) →
  reshape schema a = reshape schema b.
Proof.
  intros Hnd Hagree. apply map_eq. intros k.
  destruct (decide (k ∈ schema.*1)) as [Hin|Hout].
  - apply list_elem_of_fmap in Hin as Hin'. destruct Hin' as ([k' d] & -> & Hkd).
    rewrite !(reshape_lookup schema _ k' d Hnd Hkd).
    unfold dict_get. by rewrite (Hagree k' Hin).
  - by rewrite !reshape_lookup_other.
Qed.

Lemma reshape_conforming (schema : list (string * value)) (item : row) :
  NoDup schema.*1 →
  dom item = list_to_set schema.*1 →
  reshape schema item = item.
Proof.
  intros Hnd Hdom. apply map_eq. intros k.
  destruct (decide (k ∈ schema.*1)) as [Hin|Hout].
  - apply list_elem_of_fmap in Hin as Hin'. destruct Hin' as ([k' d] & -> & Hkd).
    rewrite (reshape_lookup schema _ k' d Hnd Hkd). unfold dict_get.
    assert (Hk : k' ∈ dom item) by (by rewrite Hdom, elem_of_list_to_set).
    apply elem_of_dom in Hk as [v Hv]. simpl in Hv |- *. by rewrite Hv.
  - rewrite reshape_lookup_other by exact Hout. symmetry.
    apply not_elem_of_dom. by rewrite Hdom, elem_of_list_to_set.
Qed.

(** X1.  A row list whose rows already have exactly the destination keys
    of a table passes through that table's transformer unchanged. *)
Theorem transform_conforming_rows (t : table) (data : list row) :
  Forall (fun item : row => dom item = keys_of t) data →
  transform_of t data = data.
Proof.
  intros Hall. rewrite transform_of_reshape.
  induction Hall as [|item data Hitem _ IH]; [reflexivity|].
  cbn [map]. rewrite IH. f_equal.
  apply reshape_conforming; [apply schema_keys_distinct|exact Hitem].
Qed.

Lemma transform_conforming_rows_witness :
  transform_of CatNameRatings [sample_rating_row] = [sample_rating_row].
Proof.
  apply (transform_conforming_rows CatNameRatings [sample_rating_row]).
  constructor; [|constructor].
  unfold keys_of. apply set_eq. intros k.
  rewrite elem_of_dom, elem_of_list_to_set.
  unfold sample_rating_row. rewrite dict_literal_list_to_map.
  rewrite <- elem_of_dom, dom_list_to_map_L, elem_of_list_to_set.
  simpl. rewrite !elem_of_cons, !elem_of_nil. tauto.
Defined.

(** X2.  Every transformer is idempotent: applying it to its own output
    changes nothing. *)
Theorem transform_idempotent (t : table) (data : list row) :
  transform_of t (transform_of t data) = transform_of t data.
Proof.
  rewrite !transform_of_reshape, map_map. apply map_ext. intros item.
  apply reshape_conforming; [apply schema_keys_distinct|].
  apply reshape_dom.
Qed.

(** X3.  The output of a transformer depends only on the destination
    fields of the input rows: two row lists that agree, row by row, on
    every destination key of the table are transformed to the same list,
    whatever other fields they carry. *)
Theorem transform_ignores_other_fields (t : table) (data1 data2 : list row) :
  Forall2 (fun a b : row => ∀ k, k ∈ keys_of t → a !! k = b !! k)
          data1 data2 →
  transform_of t data1 = transform_of t data2.
Proof.
  intros Hall. rewrite !transform_of_reshape.
  induction Hall as [|a b l1 l2 Hab _ IH]; [reflexivity|].
  cbn [map]. rewrite IH. f_equal.
  apply reshape_agree; [apply schema_keys_distinct|].
  intros k Hk. apply Hab. unfold keys_of. by rewrite elem_of_list_to_set.
Qed.

Lemma transform_ignores_other_fields_witness :
  transform_of CatNameRatings [<["id" := VInt 7]> sample_row]
  = transform_of CatNameRatings [sample_row].
Proof.
  apply (transform_ignores_other_fields CatNameRatings
           [<["id" := VInt 7]> sample_row] [sample_row]).
  constructor; [|constructor].
  intros k Hk. apply lookup_insert_ne. intros <-.
  unfold keys_of in Hk. rewrite elem_of_list_to_set in Hk. simpl in Hk.
  rewrite !elem_of_cons, elem_of_nil in Hk.
  intuition discriminate.
Defined.

(** ** Batches: exact sizes, and batching after transforming *)

(** Batching commutes with transforming. *)
Lemma batches_of_transform (t : table) (data : list row) :
  batches_of (transform_of t data) = map (transform_of t) (batches_of data).
Proof.
  rewrite !batches_of_chunks, map_map, transform_of_reshape, length_map.
  apply map_ext. intros j. rewrite transform_of_reshape.
  change (map ?f ?l) with (f <$> l).
  by rewrite fmap_take, fmap_drop.
Qed.

Lemma posts_of_chunks (project_url anon_key tbl : string) (upsert : bool)
    (data : list row) :
  map (post_request project_url anon_key tbl upsert) (batches_of data)
  = map (fun i => post_request project_url anon_key tbl upsert
                    (take 50 (drop (50 * i) data)))
        (seq 0 ((length data + 49) / 50)).
Proof.
  rewrite batches_of_chunks, map_map. apply map_ext. intros j.
  by rewrite (Nat.mul_comm j 50).
Qed.

(** The requests of a loader call are the write requests of the first
    slices of fifty rows: at most as many as there are slices, at least
    one when there are rows, and all of them when no request fails. *)
Lemma loader_requests_chunks (net : remote)
    (project_url anon_key tbl : string) (data : list row) (upsert : bool)
    (log : list event) :
  let c := (length data + 49) / 50 in
  let post := fun i => post_request project_url anon_key tbl upsert
                         (take 50 (drop (50 * i) data)) in
  ∃ k : nat,
    (k ≤ c)%nat ∧ (data ≠ [] → 1 ≤ k)%nat ∧
    requests_of
      (insert_data_to_table net project_url anon_key tbl data upsert log).2
    = (requests_of log ++ map post (seq 0 k))%list ∧
    ((∀ j rj, map post (seq 0 c) !! j = Some rj →
              failed (net (requests_of log ++ take j (map post (seq 0 c)))%list
                        rj) = false) →
     k = c).
Proof.
  intros c post.
  pose proof (insert_data_to_table_requests net project_url anon_key tbl
                data upsert log) as Hreqs.
  cbv zeta in Hreqs. rewrite posts_of_chunks in Hreqs.
  fold c in Hreqs. fold post in Hreqs.
  set (n := accepted net (requests_of log) (map post (seq 0 c))) in *.
  exists (Nat.min (S n) c).
  split; [lia|]. split.
  - intros Hne. assert (1 ≤ c)%nat; [|lia]. subst c.
    destruct data as [|x l]; [contradiction|]. cbn [length].
    pose proof (Nat.div_mod_eq (S (length l) + 49) 50).
    pose proof (Nat.mod_upper_bound (S (length l) + 49) 50). lia.
  - split.
    + rewrite Hreqs. f_equal.
      change (map post ?l) with (post <$> l).
      by rewrite <- fmap_take, take_seq.
    + intros Hok. subst n.
      rewrite (accepted_all net (requests_of log) _ Hok), length_map,
        length_seq. lia.
Qed.

(** X4.  The requests the loader sends are, in order, the write requests
    of the slices [data[50*i : 50*i + 50]] for [i = 0, 1, ...]: never
    more than the row count divided by fifty, rounded up, at least one
    when there are rows, and exactly that many when no request fails.
    The slice at [i] has fifty rows unless fewer are left, so every slice
    but the last has exactly fifty. *)
Theorem loader_requests_are_slices (net : remote)
    (project_url anon_key tbl : string) (data : list row) (upsert : bool)
    (log : list event) :
  let c := (length data + 49) / 50 in
  let post := fun i => post_request project_url anon_key tbl upsert
                         (take 50 (drop (50 * i) data)) in
  (∃ k : nat,
     (k ≤ c)%nat ∧ (data ≠ [] → 1 ≤ k)%nat ∧
     requests_of
       (insert_data_to_table net project_url anon_key tbl data upsert log).2
     = (requests_of log ++ map post (seq 0 k))%list ∧
     ((∀ j rj, map post (seq 0 c) !! j = Some rj →
               failed (net (requests_of log
                            ++ take j (map post (seq 0 c)))%list rj) = false) →
      k = c)) ∧
  (∀ i : nat, (i < c)%nat →
     length <$> req_json (post i) = Some (Nat.min 50 (length data - 50 * i)) ∧
     (1 ≤ Nat.min 50 (length data - 50 * i))%nat ∧
     (S i < c → Nat.min 50 (length data - 50 * i) = 50)%nat).
Proof.
  intros c post. split.
  - exact (loader_requests_chunks net project_url anon_key tbl data upsert
             log).
  - intros i Hi. subst c post. cbn [post_request req_json fmap option_fmap
      option_map]. rewrite length_take, length_drop.
    pose proof (Nat.div_mod_eq (length data + 49) 50) as Hdiv.
    pose proof (Nat.mod_upper_bound (length data + 49) 50) as Hmod.
    repeat split; lia.
Qed.

Lemma loader_requests_are_slices_witness :
  map (fun r => length <$> req_json r)
      (requests_of
         (insert_data_to_table net_sample_row NEW_SUPABASE_URL "key"
            "cat_name_ratings" sample_rows_120 false []).2)
  = [Some 50; Some 50; Some 20].
Proof.
  destruct (loader_requests_are_slices net_sample_row NEW_SUPABASE_URL "key"
              "cat_name_ratings" sample_rows_120 false [])
    as [(k & _ & _ & Hreqs & Hall) _].
  rewrite Hreqs, Hall.
  - reflexivity.
  - intros j rj _. reflexivity.
Defined.

Lemma transform_of_slice (t : table) (data : list row) (i : nat) :
  take 50 (drop (50 * i) (transform_of t data))
  = transform_of t (take 50 (drop (50 * i) data)).
Proof.
  rewrite !transform_of_reshape. change (map ?f ?l) with (f <$> l).
  by rewrite fmap_take, fmap_drop.
Qed.

(** X5.  Batching commutes with transforming in the loader: given the
    transformed rows of a table, the requests it sends are, in order, the
    write requests whose bodies are the transforms of the slices
    [data[50*i : 50*i + 50]] of the source rows, for [i = 0, 1, ...]:
    never more than the source row count divided by fifty, rounded up,
    and exactly that many when no request fails.  Each write body is the
    transform of one slice of at most fifty consecutive source rows. *)
Theorem loader_writes_transformed_slices (net : remote)
    (project_url anon_key tbl : string) (t : table) (data : list row)
    (upsert : bool) (log : list event) :
  let c := (length data + 49) / 50 in
  let post := fun i => post_request project_url anon_key tbl upsert
                         (transform_of t (take 50 (drop (50 * i) data))) in
  ∃ k : nat,
    (k ≤ c)%nat ∧ (data ≠ [] → 1 ≤ k)%nat ∧
    requests_of
      (insert_data_to_table net project_url anon_key tbl
         (transform_of t data) upsert log).2
    = (requests_of log ++ map post (seq 0 k))%list ∧
    ((∀ j rj, map post (seq 0 c) !! j = Some rj →
              failed (net (requests_of log
                           ++ take j (map post (seq 0 c)))%list rj) = false) →
     k = c).
Proof.
  intros c post.
  destruct (loader_requests_chunks net project_url anon_key tbl
              (transform_of t data) upsert log)
    as (k & Hle & Hpos & Hreqs & Hall).
  assert (Hlen : length (transform_of t data) = length data).
  { rewrite transform_of_reshape. apply length_map. }
  assert (Hpost : ∀ l : list nat,
            map (fun i => post_request project_url anon_key tbl upsert
                            (take 50 (drop (50 * i) (transform_of t data)))) l
            = map post l).
  { intros l. apply map_ext. intros i. subst post. cbv beta.
    by rewrite transform_of_slice. }
  rewrite Hlen in Hle, Hall. rewrite !Hpost in Hall. rewrite Hpost in Hreqs.
  fold c in Hle, Hall.
  exists k. split; [exact Hle|]. split.
  - intros Hne. apply Hpos. intros Hnil. apply Hne.
    apply length_zero_iff_nil. rewrite <- Hlen, Hnil. reflexivity.
  - split; [exact Hreqs|exact Hall].
Qed.

Lemma loader_writes_transformed_slices_witness :
  requests_of
    (insert_data_to_table net_sample_row NEW_SUPABASE_URL "key"
       "cat_name_ratings"
       (transform_of CatNameRatings [sample_row; null_rating_row]) false []).2
  = [ post_request NEW_SUPABASE_URL "key" "cat_name_ratings" false
        (transform_of CatNameRatings [sample_row; null_rating_row]) ].
Proof.
  destruct (loader_writes_transformed_slices net_sample_row NEW_SUPABASE_URL
              "key" "cat_name_ratings" CatNameRatings
              [sample_row; null_rating_row] false [])
    as (k & _ & _ & Hreqs & Hall).
  rewrite Hreqs, Hall.
  - reflexivity.
  - intros j rj _. reflexivity.
Defined.

(** ** Loader: small inputs, and what every write request looks like *)

Lemma batches_of_small (data : list row) :
  (1 ≤ length data ≤ 50)%nat → batches_of data = [data].
Proof.
  intros Hlen. rewrite batches_of_chunks.
  replace ((length data + 49) / 50) with 1.
  - cbn [seq map]. rewrite drop_0, take_ge by lia. reflexivity.
  - apply (Nat.div_unique _ 50 1 (length data - 1)); lia.
Qed.

(** X6.  A list of one to fifty rows is written with a single request
    whose body is the whole list, and the loader returns [True] exactly
    when that request does not fail. *)
Theorem loader_single_batch (net : remote)
    (project_url anon_key tbl : string) (data : list row) (upsert : bool)
    (log : list event) :
  let req := post_request project_url anon_key tbl upsert data in
  let run :=
    insert_data_to_table net project_url anon_key tbl data upsert log in
  (1 ≤ length data ≤ 50)%nat →
  requests_of run.2 = (requests_of log ++ [req])%list ∧
  run.1 = negb (failed (net (requests_of log) req)).
Proof.
  intros req run Hlen.
  assert (Hne : data ≠ []) by (intros ->; simpl in Hlen; lia).
  destruct (insert_data_to_table_spec net project_url anon_key tbl data
              upsert log Hne) as (log' & Hrun & Hreqs).
  fold run in Hrun. rewrite Hrun. cbn [fst snd].
  rewrite batches_of_small in Hreqs |- * by exact Hlen.
  cbn [map accepted length] in Hreqs |- *. fold req in Hreqs |- *.
  destruct (failed (net (requests_of log) req)).
  - split; [exact Hreqs|reflexivity].
  - split; [exact Hreqs|reflexivity].
Qed.

Lemma loader_single_batch_witness :
  requests_of
    (insert_data_to_table net_status_500 NEW_SUPABASE_URL "key"
       "cat_app_users" [sample_row; null_rating_row] true []).2
  = [post_request NEW_SUPABASE_URL "key" "cat_app_users" true
       [sample_row; null_rating_row]] ∧
  (insert_data_to_table net_status_500 NEW_SUPABASE_URL "key"
     "cat_app_users" [sample_row; null_rating_row] true []).1 = false.
Proof.
  apply (loader_single_batch net_status_500 NEW_SUPABASE_URL "key"
           "cat_app_users" [sample_row; null_rating_row] true []).
  simpl. lia.
Defined.

(** X7.  Every request the loader sends is a POST to
    [{project_url}/rest/v1/{table_name}] carrying one of the batches as
    its JSON body, the key in the [apikey] and [Authorization] headers,
    and a [Prefer] header that asks for merging duplicates exactly when
    [use_upsert] is set; the write mode changes nothing else. *)
Theorem loader_request_shape (net : remote)
    (project_url anon_key tbl : string) (data : list row) (upsert : bool)
    (log : list event) :
  ∃ sent : list request,
    requests_of
      (insert_data_to_table net project_url anon_key tbl data upsert log).2
    = (requests_of log ++ sent)%list ∧
    Forall (fun r =>
              req_method r = POST ∧
              req_url r = project_url +:+ "/rest/v1/" +:+ tbl ∧
              req_headers r
              = [ ("apikey", anon_key);
                  ("Authorization", "Bearer " +:+ anon_key);
                  ("Content-Type", "application/json");
                  ("Prefer",
                   if upsert
                   then "return=representation,resolution=merge-duplicates"
                   else "return=representation") ] ∧
              ∃ batch, batch ∈ batches_of data ∧ req_json r = Some batch)
           sent.
Proof.
  eexists. split; [apply insert_data_to_table_requests|].
  apply Forall_forall. intros r Hr. apply subseteq_take in Hr.
  apply list_elem_of_In, in_map_iff in Hr as (batch & <- & Hb).
  repeat split. exists batch. split; [by apply list_elem_of_In|reflexivity].
Qed.

(** ** Orchestrator: what one pass writes, and what [main] sends *)




Lemma migrate_requests_gets (OLD_ANON_KEY NEW_ANON_KEY : string)
    (net : remote) (hist : list request) (ds : list descriptor) :
  List.filter is_get
    (concat (migrate_requests OLD_ANON_KEY NEW_ANON_KEY net hist ds))
  = map (fun d => get_request OLD_SUPABASE_URL OLD_ANON_KEY (table_name d)) ds.
Proof.
  revert hist. induction ds as [|d ds IH]; intros hist; [reflexivity|].
  cbn [migrate_requests concat map]. rewrite List.filter_app, IH.
  destruct (table_requests_shape OLD_ANON_KEY NEW_ANON_KEY net hist d)
    as (posts & -> & Hposts & _).
  cbn [List.filter is_get get_request req_method].
  replace (List.filter is_get posts) with (@nil request); [reflexivity|].
  symmetry. clear -Hposts.
  induction Hposts as [|r posts [batch ->] _ IHp]; [reflexivity|].
  cbn [List.filter is_get post_request req_method]. exact IHp.
Qed.

(** X9.  Whatever the remote answers, a run of [main] sends exactly four
    read requests, one per source table and in the dependency order
    [cat_name_options], [cat_app_users], [cat_name_ratings],
    [tournament_selections]: no table is read twice and none is skipped. *)
Theorem main_reads_each_table_once (OLD_ANON_KEY NEW_ANON_KEY : string)
    (net : remote) (log : list event) :
  ∃ sent : list request,
    requests_of (main OLD_ANON_KEY NEW_ANON_KEY net log).2
    = (requests_of log ++ sent)%list ∧
    List.filter is_get sent
    = [ get_request OLD_SUPABASE_URL OLD_ANON_KEY "cat_name_options";
        get_request OLD_SUPABASE_URL OLD_ANON_KEY "cat_app_users";
        get_request OLD_SUPABASE_URL OLD_ANON_KEY "cat_name_ratings";
        get_request OLD_SUPABASE_URL OLD_ANON_KEY "tournament_selections" ].
Proof.
  eexists. split; [apply main_requests|].
  rewrite migrate_requests_gets. reflexivity.
Qed.

(** X10.  Every request of a run of [main] is either a read request,
    without body, to the old project under the old key, or a write
    request to the new project under the new key whose body is a batch
    of one to fifty rows; the old project is never written to, the new
    one never read, and neither key is sent to the other project.  Write
    requests ask for merging duplicates exactly for [cat_name_options]. *)
Theorem main_request_shape (OLD_ANON_KEY NEW_ANON_KEY : string)
    (net : remote) (log : list event) :
  ∃ sent : list request,
    requests_of (main OLD_ANON_KEY NEW_ANON_KEY net log).2
    = (requests_of log ++ sent)%list ∧
    Forall (fun r => ∃ tbl : string,
      tbl ∈ ["cat_name_options"; "cat_app_users"; "cat_name_ratings";
             "tournament_selections"] ∧
      ((req_method r = GET ∧
        req_url r = OLD_SUPABASE_URL +:+ "/rest/v1/" +:+ tbl +:+ "?select=*" ∧
        req_headers r
        = [ ("apikey", OLD_ANON_KEY);
            ("Authorization", "Bearer " +:+ OLD_ANON_KEY);
            ("Content-Type", "application/json");
            ("Prefer", "return=representation") ] ∧
        req_json r = None) ∨
       (req_method r = POST ∧
        req_url r = NEW_SUPABASE_URL +:+ "/rest/v1/" +:+ tbl ∧
        req_headers r
        = [ ("apikey", NEW_ANON_KEY);
            ("Authorization", "Bearer " +:+ NEW_ANON_KEY);
            ("Content-Type", "application/json");
            ("Prefer",
             if String.eqb tbl "cat_name_options"
             then "return=representation,resolution=merge-duplicates"
             else "return=representation") ] ∧
        ∃ batch, req_json r = Some batch ∧ (1 ≤ length batch ≤ 50)%nat)))
      sent.
Proof.
  eexists. split; [apply main_requests|].
  assert (Hgen : ∀ ds hist,
    Forall (fun d : descriptor =>
              table_name d ∈ ["cat_name_options"; "cat_app_users";
                              "cat_name_ratings"; "tournament_selections"] ∧
              use_upsert d = String.eqb (table_name d) "cat_name_options") ds →
    Forall (fun r => ∃ tbl : string,
      tbl ∈ ["cat_name_options"; "cat_app_users"; "cat_name_ratings";
             "tournament_selections"] ∧
      ((req_method r = GET ∧
        req_url r = OLD_SUPABASE_URL +:+ "/rest/v1/" +:+ tbl +:+ "?select=*" ∧
        req_headers r
        = [ ("apikey", OLD_ANON_KEY);
            ("Authorization", "Bearer " +:+ OLD_ANON_KEY);
            ("Content-Type", "application/json");
            ("Prefer", "return=representation") ] ∧
        req_json r = None) ∨
       (req_method r = POST ∧
        req_url r = NEW_SUPABASE_URL +:+ "/rest/v1/" +:+ tbl ∧
        req_headers r
        = [ ("apikey", NEW_ANON_KEY);
            ("Authorization", "Bearer " +:+ NEW_ANON_KEY);
            ("Content-Type", "application/json");
            ("Prefer",
             if String.eqb tbl "cat_name_options"
             then "return=representation,resolution=merge-duplicates"
             else "return=representation") ] ∧
        ∃ batch, req_json r = Some batch ∧ (1 ≤ length batch ≤ 50)%nat)))
      (concat (migrate_requests OLD_ANON_KEY NEW_ANON_KEY net hist ds))).
  { intros ds. induction ds as [|d ds IH]; intros hist Hds; [constructor|].
    apply Forall_cons in Hds as [[Hname Hup] Hds].
    cbn [migrate_requests concat]. apply Forall_app. split; [|by apply IH].
    unfold table_requests.
    set (req := get_request OLD_SUPABASE_URL OLD_ANON_KEY (table_name d)).
    constructor.
    - exists (table_name d). split; [exact Hname|]. left. repeat split.
    - destruct (rows_of_answer (net hist req)) as [|x l]; [constructor|].
      apply Forall_forall. intros r Hr. apply subseteq_take in Hr.
      apply list_elem_of_In, in_map_iff in Hr as (batch & <- & Hb).
      exists (table_name d). split; [exact Hname|]. right.
      cbn [post_request req_method req_url req_headers req_json].
      rewrite Hup. repeat split. exists batch. split; [reflexivity|].
      apply list_elem_of_In in Hb.
      pose proof (batches_sizes (transform_func d (x :: l))) as Hsz.
      rewrite Forall_forall in Hsz. exact (Hsz batch Hb). }
  apply Hgen. unfold tables.
  repeat (constructor; [split; [|reflexivity];
    cbn [table_name fst snd];
    rewrite !elem_of_cons; tauto|]).
  constructor.
Qed.

(** ** Loader and extractor: the event log *)

Lemma for_each_attempt_cons {A : Type} (x : A) (xs : list A)
    (body : A → attempt unit) (log : list event) :
  for_each (M := attempt) (x :: xs) body log
  = match body x log with
    | (inl e, log') => (inl e, log')
    | (inr _, log') => for_each (M := attempt) xs body log'
    end.
Proof. reflexivity. Qed.

Section LoaderLog.

Variable net : remote.
Variables project_url anon_key tbl : string.
Variable data : list row.
Variable upsert : bool.

Lemma loader_step_run (i : nat) (log : list event) :
  match net (requests_of log)
          (post_request project_url anon_key tbl upsert (batch_at data i)) with
  | inl e =>
      loader_step net project_url anon_key tbl data upsert i log
      = (inl e,
         (log ++ [Sent (post_request project_url anon_key tbl upsert
                          (batch_at data i))])%list)
  | inr resp =>
      if http_error resp
      then ∃ e,
             loader_step net project_url anon_key tbl data upsert i log
             = (inl e,
                (log ++ [Sent (post_request project_url anon_key tbl upsert
                                 (batch_at data i))])%list) ∧
             exc_response e = Some resp
      else loader_step net project_url anon_key tbl data upsert i log
           = (inr tt,
              (log ++ step_events project_url anon_key tbl data upsert i)%list)
  end.
Proof.
  set (r := post_request project_url anon_key tbl upsert (batch_at data i)).
  unfold loader_step.
  change (requests_post net _ _ (py_slice data i (i + batch_size)))
    with (send net r).
  unfold mbind, attempt_bind, send.
  destruct (net (requests_of log) r) as [e|resp]; [reflexivity|].
  destruct (http_error resp) eqn:Herr.
  - destruct (raise_for_status_error resp (log ++ [Sent r])%list Herr)
      as (e & He & Hresp).
    exists e. rewrite He. split; [reflexivity|exact Hresp].
  - rewrite (raise_for_status_ok resp _ Herr). unfold lift, print.
    unfold step_events, inserted_line, batch_at. fold r.
    rewrite <- app_assoc. reflexivity.
Qed.

(** The loop of the loader at the level of events: the batches that go
    through leave their request and their progress line; the first batch
    that fails leaves its request and ends the loop with the exception of
    the transport, or with an [HTTPError] that carries the response. *)
Lemma post_loop_events (idxs : list nat) (log : list event) :
  match idxs !! accepted net (requests_of log)
                  (map (fun i => post_request project_url anon_key tbl upsert
                                   (batch_at data i)) idxs) with
  | None =>
      for_each idxs (loader_step net project_url anon_key tbl data upsert) log
      = (inr tt,
         (log ++ concat (map (step_events project_url anon_key tbl data upsert)
                             idxs))%list)
  | Some i =>
      ∃ e,
        for_each idxs (loader_step net project_url anon_key tbl data upsert) log
        = (inl e,
           (log
            ++ concat (map (step_events project_url anon_key tbl data upsert)
                 (take (accepted net (requests_of log)
                          (map (fun i => post_request project_url anon_key tbl
                                           upsert (batch_at data i)) idxs))
                       idxs))
            ++ [Sent (post_request project_url anon_key tbl upsert
                        (batch_at data i))])%list) ∧
        match net (requests_of log
                   ++ take (accepted net (requests_of log)
                              (map (fun i => post_request project_url anon_key
                                               tbl upsert (batch_at data i))
                                   idxs))
                        (map (fun i => post_request project_url anon_key tbl
                                         upsert (batch_at data i)) idxs))%list
                  (post_request project_url anon_key tbl upsert
                     (batch_at data i)) with
        | inl e' => e = e'
        | inr resp => exc_response e = Some resp
        end
  end.
Proof.
  revert log. induction idxs as [|i idxs IH]; intros log.
  - simpl. by rewrite app_nil_r.
  - rewrite for_each_attempt_cons. cbn [map accepted].
    pose proof (loader_step_run i log) as Hstep.
    set (r := post_request project_url anon_key tbl upsert (batch_at data i))
      in *.
    destruct (net (requests_of log) r) as [e|resp] eqn:Hnet; cbn [failed].
    + cbn [lookup list_lookup take map concat app]. fold r.
      rewrite Hstep, app_nil_r, Hnet. exists e. split; reflexivity.
    + destruct (http_error resp) eqn:Herr.
      * destruct Hstep as (e & He & Hresp).
        cbn [lookup list_lookup take map concat app]. fold r.
        rewrite He, app_nil_r, Hnet. exists e. split; [reflexivity|exact Hresp].
      * rewrite Hstep.
        specialize (IH (log ++ step_events project_url anon_key tbl data
                                 upsert i)%list).
        assert (Hhist : requests_of
                          (log ++ step_events project_url anon_key tbl data
                                    upsert i)
                        = (requests_of log ++ [r])%list).
        { unfold step_events. fold r.
          change [Sent r; Printed ?l] with ([Sent r] ++ [Printed l])%list.
          by rewrite app_assoc, requests_of_print, requests_of_send. }
        rewrite Hhist in IH.
        cbn [lookup list_lookup take map concat]. fold r.
        destruct (idxs !! accepted net (requests_of log ++ [r])
                    (map (fun i => post_request project_url anon_key tbl upsert
                                     (batch_at data i)) idxs)) as [i'|].
        -- destruct IH as (e & Hrun & He). exists e. split.
           ++ rewrite Hrun. f_equal. rewrite <- !app_assoc. reflexivity.
           ++ rewrite <- app_assoc in He. exact He.
        -- rewrite IH. f_equal. rewrite <- !app_assoc. reflexivity.
Qed.

End LoaderLog.

Lemma insert_data_to_table_loop (net : remote)
    (project_url anon_key tbl : string) (data : list row) (upsert : bool)
    (log : list event) :
  data ≠ [] →
  insert_data_to_table net project_url anon_key tbl data upsert log
  = match for_each (py_range 0 (length data) batch_size)
            (loader_step net project_url anon_key tbl data upsert) log with
    | (inl e, log') => (false, (log' ++ failure_report tbl e)%list)
    | (inr _, log') => (true, log')
    end.
Proof.
  intros Hne. unfold insert_data_to_table.
  destruct data as [|x l] eqn:Hdata; [contradiction|]. rewrite <- Hdata.
  cbv zeta. unfold try_except.
  unfold mbind at 1. unfold attempt_bind at 1.
  change (for_each (M := attempt) (py_range 0 (length data) batch_size) _ log)
    with (for_each (py_range 0 (length data) batch_size)
            (loader_step net project_url anon_key tbl data upsert) log).
  destruct (for_each (py_range 0 (length data) batch_size)
              (loader_step net project_url anon_key tbl data upsert) log)
    as [[e|[]] log']; [|reflexivity].
  unfold mbind, io_bind, mret, io_ret, print, failure_report.
  destruct (exc_response e) as [r|].
  - rewrite <- app_assoc. reflexivity.
  - reflexivity.
Qed.

Lemma py_range_lookup (n j i : nat) :
  py_range 0 n batch_size !! j = Some i → i / batch_size = j.
Proof.
  unfold py_range. change (map ?f ?l) with (f <$> l).
  intros Hj. apply list_lookup_fmap_Some in Hj as (j' & -> & Hj').
  apply lookup_seq in Hj' as [-> _]. rewrite !Nat.add_0_l.
  apply Nat.div_mul. discriminate.
Qed.

Lemma step_events_batches (project_url anon_key tbl : string)
    (data : list row) (upsert : bool) (k : nat) :
  concat (map (step_events project_url anon_key tbl data upsert)
              (take k (py_range 0 (length data) batch_size)))
  = concat (imap (batch_events project_url anon_key tbl upsert)
                 (take k (batches_of data))).
Proof.
  f_equal. unfold batches_of. fold (batch_at data).
  change (map (batch_at data) ?l) with (batch_at data <$> l).
  rewrite <- fmap_take, imap_fmap.
  rewrite (imap_ext _
             (fun _ i => step_events project_url anon_key tbl data upsert i)).
  - change (map ?f ?l) with (f <$> l). symmetry. apply imap_const.
  - intros j i Hj. apply lookup_take_Some in Hj as [Hj _].
    apply py_range_lookup in Hj. unfold step_events, batch_events, compose.
    by rewrite Hj.
Qed.

Lemma posts_of_py_range (project_url anon_key tbl : string)
    (data : list row) (upsert : bool) :
  map (fun i => post_request project_url anon_key tbl upsert (batch_at data i))
      (py_range 0 (length data) batch_size)
  = map (post_request project_url anon_key tbl upsert) (batches_of data).
Proof. unfold batches_of. rewrite map_map. reflexivity. Qed.

(** X11.  When no write request fails, the loader returns [True].  Given
    rows, its log grows by exactly, for each batch in order, the batch's
    request followed by the progress line
    "Inserted batch N for T (M records)", where N counts the batches from
    1 and M is the batch's size; given the empty list, it grows by the
    single line "No data to insert for T" and no request. *)
Theorem loader_success_log (net : remote)
    (project_url anon_key tbl : string) (data : list row) (upsert : bool)
    (log : list event) :
  let reqs :=
    map (post_request project_url anon_key tbl upsert) (batches_of data) in
  (∀ j rj, reqs !! j = Some rj →
           failed (net (requests_of log ++ take j reqs)%list rj) = false) →
  insert_data_to_table net project_url anon_key tbl data upsert log
  = (true,
     (log ++ match data with
             | [] => [Printed ("No data to insert for " +:+ tbl)]
             | _ :: _ =>
                 concat (imap (batch_events project_url anon_key tbl upsert)
                              (batches_of data))
             end)%list).
Proof.
  intros reqs Hok.
  destruct (decide (data = [])) as [->|Hne]; [reflexivity|].
  transitivity
    (true,
     (log ++ concat (imap (batch_events project_url anon_key tbl upsert)
                          (batches_of data)))%list);
    [|destruct data; [contradiction|reflexivity]].
  rewrite insert_data_to_table_loop by exact Hne.
  pose proof (post_loop_events net project_url anon_key tbl data upsert
                (py_range 0 (length data) batch_size) log) as Hloop.
  rewrite posts_of_py_range in Hloop. fold reqs in Hloop.
  rewrite (accepted_all net (requests_of log) reqs Hok) in Hloop.
  assert (Hlen : length reqs = length (py_range 0 (length data) batch_size)).
  { subst reqs. unfold batches_of. by rewrite !length_map. }
  rewrite Hlen, lookup_ge_None_2 in Hloop by lia.
  rewrite Hloop.
  rewrite <- (take_ge (py_range 0 (length data) batch_size)
                (length (py_range 0 (length data) batch_size))) at 1 by lia.
  rewrite step_events_batches, take_ge; [reflexivity|].
  unfold batches_of. rewrite length_map. lia.
Qed.

Lemma loader_success_log_witness :
  insert_data_to_table net_sample_row NEW_SUPABASE_URL "key"
    "cat_name_ratings" [sample_row] false []
  = (true,
     [ Sent (post_request NEW_SUPABASE_URL "key" "cat_name_ratings" false
               [sample_row]);
       Printed "Inserted batch 1 for cat_name_ratings (1 records)" ]) ∧
  insert_data_to_table net_status_500 NEW_SUPABASE_URL "key"
    "cat_name_ratings" [] false []
  = (true, [Printed "No data to insert for cat_name_ratings"]).
Proof.
  split.
  - apply (loader_success_log net_sample_row NEW_SUPABASE_URL "key"
             "cat_name_ratings" [sample_row] false []).
    intros j rj _. reflexivity.
  - apply (loader_success_log net_status_500 NEW_SUPABASE_URL "key"
             "cat_name_ratings" [] false []).
    intros j rj Hj. discriminate Hj.
Defined.

(** X12.  When the request of batch [k] is the first to fail, the loader
    returns [False] and its log grows by the request and progress line of
    each of the [k] batches before it, the failing request, and the
    report of the handler: the line "Error inserting data into T: ..."
    with the text of the exception, followed by the line
    "Response content: ..." with the body of the response when the
    exception carries one, which it does whenever the failure is an error
    status. *)
Theorem loader_failure_log (net : remote)
    (project_url anon_key tbl : string) (data : list row) (upsert : bool)
    (log : list event) (k : nat) (r : request) :
  let reqs :=
    map (post_request project_url anon_key tbl upsert) (batches_of data) in
  let hist := requests_of log in
  reqs !! k = Some r →
  (∀ j rj, (j < k)%nat → reqs !! j = Some rj →
           failed (net (hist ++ take j reqs)%list rj) = false) →
  failed (net (hist ++ take k reqs)%list r) = true →
  ∃ e : RequestException,
    insert_data_to_table net project_url anon_key tbl data upsert log
    = (false,
       (log
        ++ concat (imap (batch_events project_url anon_key tbl upsert)
                        (take k (batches_of data)))
        ++ [Sent r] ++ failure_report tbl e)%list) ∧
    match net (hist ++ take k reqs)%list r with
    | inl e' => e = e'
    | inr resp => exc_response e = Some resp
    end.
Proof.
  intros reqs hist Hk Hok Hfail.
  assert (Hne : data ≠ []).
  { intros ->. subst reqs. rewrite batches_of_nil in Hk. discriminate Hk. }
  rewrite insert_data_to_table_loop by exact Hne.
  pose proof (post_loop_events net project_url anon_key tbl data upsert
                (py_range 0 (length data) batch_size) log) as Hloop.
  rewrite posts_of_py_range in Hloop. fold reqs hist in Hloop.
  rewrite (accepted_first_failure net hist reqs k r Hk Hok Hfail) in Hloop.
  assert (Hi : ∃ i, py_range 0 (length data) batch_size !! k = Some i ∧
                    r = post_request project_url anon_key tbl upsert
                          (batch_at data i)).
  { subst reqs. rewrite <- posts_of_py_range in Hk.
    change (map ?f ?l) with (f <$> l) in Hk.
    apply list_lookup_fmap_Some in Hk as (i & -> & Hi). by exists i. }
  destruct Hi as (i & Hi & ->). rewrite Hi in Hloop.
  destruct Hloop as (e & Hrun & He). exists e. split; [|exact He].
  rewrite Hrun, step_events_batches, <- !app_assoc. reflexivity.
Qed.

Lemma loader_failure_log_witness :
  ∃ e : RequestException,
    insert_data_to_table net_status_500 NEW_SUPABASE_URL "key"
      "cat_name_ratings" [sample_row] false []
    = (false,
       [ Sent (post_request NEW_SUPABASE_URL "key" "cat_name_ratings" false
                 [sample_row]);
         Printed ("Error inserting data into cat_name_ratings: " +:+ exc_str e);
         Printed "Response content: sample" ]).
Proof.
  destruct (loader_failure_log net_status_500 NEW_SUPABASE_URL "key"
              "cat_name_ratings" [sample_row] false [] 0
              (post_request NEW_SUPABASE_URL "key" "cat_name_ratings" false
                 [sample_row])) as (e & Hrun & He).
  - reflexivity.
  - intros j rj Hj. lia.
  - reflexivity.
  - exists e. rewrite Hrun. simpl in He. unfold failure_report.
    rewrite He. reflexivity.
Defined.

(** X13.  The extractor makes a single attempt and reports a failure in
    one line: on success the log grows by the read request alone; when
    the call fails in transport it grows by the request and the line
    "Error getting data from T: ..." with the text of the exception, and
    when the response has an error status by the request and one such
    line.  In both failure cases the result is the empty list and no
    second request is sent. *)
Theorem extractor_log (net : remote)
    (project_url anon_key tbl : string) (log : list event) :
  let req := get_request project_url anon_key tbl in
  let answer := net (requests_of log) req in
  let run := get_data_from_table net project_url anon_key tbl log in
  (∀ r rows, answer = inr r → ¬ (400 ≤ status_code r < 600)%Z →
             json r = inr rows →
             run = (rows, (log ++ [Sent req])%list)) ∧
  (∀ e, answer = inl e →
        run = ([], (log ++ [Sent req;
                            Printed ("Error getting data from " +:+ tbl +:+
                                     ": " +:+ exc_str e)])%list)) ∧
  (∀ r, answer = inr r → (400 ≤ status_code r < 600)%Z →
        ∃ msg : string,
          run = ([], (log ++ [Sent req;
                              Printed ("Error getting data from " +:+ tbl +:+
                                       ": " +:+ msg)])%list)).
Proof.
  intros req answer run. subst run answer.
  unfold get_data_from_table, try_except, requests_get, send.
  unfold mbind, attempt_bind, io_bind, mret, io_ret, attempt_ret.
  fold (get_request project_url anon_key tbl). fold req.
  repeat split.
  - intros r rows Hnet Hst Hjson. rewrite Hnet.
    assert (Herr : http_error r = false).
    { destruct (http_error r) eqn:Herr; [|reflexivity].
      apply http_error_status in Herr. contradiction. }
    rewrite (raise_for_status_ok r _ Herr). unfold response_json.
    rewrite Hjson. reflexivity.
  - intros e Hnet. rewrite Hnet. unfold print.
    rewrite <- app_assoc. reflexivity.
  - intros r Hnet Hst. rewrite Hnet. apply http_error_status in Hst.
    destruct (raise_for_status_error r (log ++ [Sent req])%list Hst)
      as (e & He & _).
    rewrite He. exists (exc_str e). unfold print.
    rewrite <- app_assoc. reflexivity.
Qed.

Lemma extractor_log_witness :
  get_data_from_table net_sample_row OLD_SUPABASE_URL "key"
    "cat_name_ratings" []
  = ([sample_row],
     [Sent (get_request OLD_SUPABASE_URL "key" "cat_name_ratings")]) ∧
  ∃ msg : string,
    get_data_from_table net_status_500 OLD_SUPABASE_URL "key"
      "cat_name_ratings" []
    = ([],
       [ Sent (get_request OLD_SUPABASE_URL "key" "cat_name_ratings");
         Printed ("Error getting data from cat_name_ratings: " +:+ msg) ]).
Proof.
  split.
  - destruct (extractor_log net_sample_row OLD_SUPABASE_URL "key"
                "cat_name_ratings" []) as (Hok & _ & _).
    apply (Hok (sample_response 200 [sample_row]) [sample_row]).
    + reflexivity.
    + simpl. lia.
    + reflexivity.
  - destruct (extractor_log net_status_500 OLD_SUPABASE_URL "key"
                "cat_name_ratings" []) as (_ & _ & Herr).
    apply (Herr (sample_response 500 [])).
    + reflexivity.
    + simpl. lia.
Defined.
